(** * fileConvert: the CSV <-> JSON record transcoder of the data enrichment tool

    A shallow embedding of [src/fileConvert.py]: [csv_to_json],
    [json_to_csv] and [count_records], with the parts of Python's
    [csv.DictReader], [csv.DictWriter], [dict], [str.strip] and the
    [json.dump]/[json.load] pair that the three functions rely on.

    Modelling boundary.  A CSV file enters the model as the list of rows
    that [csv.reader] yields for it (every function of the module reads its
    file through the same reader, dialect and encoding), and leaves it as
    the header list and the rows handed to [csv.DictWriter].  A Python
    [str] whose code points are below 256 is a [string], one [ascii] per
    code point. *)

From stdpp Require Import base decidable option list strings gmap.

Local Open Scope string_scope.
Local Open Scope nat_scope.
Local Open Scope list_scope.

(** ** Python dictionaries

    A [dict] keeps its keys in insertion order, and assigning to a key
    that is already present replaces the value without moving the key.
    Both facts are observable here (the order of JSON members decides the
    order of the pass-through columns), so a dictionary is an association
    list that the operations keep free of duplicate keys. *)

Definition pydict (K V : Type) : Type := list (K * V).

Section pydict.
Context {K V : Type} `{EqDecision K}.

(** [d.get(k)] *)
Fixpoint dict_get (d : pydict K V) (k : K) : option V :=
  match d with
  | [] => None
  | (k', v) :: d' => if decide (k' = k) then Some v else dict_get d' k
  end.

(** [d.get(k, dflt)] *)
Definition dict_get_default (d : pydict K V) (k : K) (dflt : V) : V :=
  default dflt (dict_get d k).

(** [d[k] = v] *)
Fixpoint dict_set (d : pydict K V) (k : K) (v : V) : pydict K V :=
  match d with
  | [] => [(k, v)]
  | (k', v') :: d' =>
      if decide (k' = k) then (k', v) :: d' else (k', v') :: dict_set d' k v
  end.

(** [d.keys()], [d.values()] and [d.items()] iterate in insertion order. *)
Definition dict_keys (d : pydict K V) : list K := d.*1.
Definition dict_values (d : pydict K V) : list V := d.*2.

(** [d.update(other)], also the loop [for k, v in other: d[k] = v]. *)
Definition dict_update (d : pydict K V) (other : list (K * V)) : pydict K V :=
  foldl (λ acc kv, dict_set acc kv.1 kv.2) d other.

(** [dict(pairs)] and the comprehension [{k: v for k, v in pairs}]. *)
Definition dict_of_pairs (pairs : list (K * V)) : pydict K V :=
  dict_update [] pairs.
End pydict.

(** ** The fixed tables *)

(** [header_mapping], local to [csv_to_json]: CSV column name to JSON field. *)
Definition header_mapping : pydict string string :=
  [ ("Supplier Company", "companyName");
    ("Supplier First Name", "firstName");
    ("Supplier Last Name", "lastName");
    ("Supplier Email", "emailAddress");
    ("Supplier Phone", "phone");
    ("Supplier Street", "companyStreet");
    ("Supplier City", "companyCity");
    ("Supplier State", "companyState");
    ("Supplier Zip Code", "companyZipCode");
    ("Supplier Country", "companyCountry");
    ("Site Name", "siteName");
    ("Site ID", "siteID");
    ("Additional Contact Info", "additionalContactInfo") ].

(** [new_json_values], local to [csv_to_json]: the fields added to every
    record, with their defaults. *)
Definition new_json_values : pydict string string :=
  [ ("zi_c_name", "");
    ("zi_c_company_id", "");
    ("jobTitle", "");
    ("zi_c_company_name", "");
    ("zi_c_phone", "");
    ("zi_c_url", "");
    ("zi_c_linkedin_url", "");
    ("zi_c_naics6", "");
    ("sectorTitle", "");
    ("primaryIndustry", "");
    ("zi_c_employees", "");
    ("zi_c_street", "");
    ("zi_c_city", "");
    ("zi_c_state", "");
    ("zi_c_zip", "");
    ("zi_c_country", "");
    ("zi_c_location_id", "");
    ("needsContact", "");
    ("newContactFound", "");
    ("personId", "");
    ("contactMatchCriteria", "");
    ("enrichmentStatus", "Success");
    ("errorMessage", "") ].

(** [csv_mapping], local to [json_to_csv]: JSON field to CSV column name. *)
Definition csv_mapping : pydict string string :=
  [ ("companyName", "Supplier Company");
    ("companyStreet", "Supplier Street");
    ("companyCity", "Supplier City");
    ("companyState", "Supplier State");
    ("companyZipCode", "Supplier Zip Code");
    ("companyCountry", "Supplier Country");
    ("firstName", "Supplier First Name");
    ("lastName", "Supplier Last Name");
    ("emailAddress", "Supplier Email");
    ("phone", "Supplier Phone");
    ("siteName", "Site Name");
    ("siteID", "Site ID");
    ("additionalContactInfo", "Additional Contact Info");
    ("zi_c_name", "Zoominfo Company Name");
    ("zi_c_company_id", "Zoominfo Company ID");
    ("zi_c_company_name", "Company HQ Name");
    ("zi_c_phone", "Company Phone");
    ("zi_c_url", "Website");
    ("zi_c_linkedin_url", "Company LinkedIn URL");
    ("jobTitle", "Contact Job Title");
    ("zi_c_naics6", "6-digit NAICS Code");
    ("sectorTitle", "Sector Title");
    ("primaryIndustry", "Primary Industry");
    ("zi_c_employees", "Number of Employees");
    ("zi_c_street", "Company Street");
    ("zi_c_city", "Company City");
    ("zi_c_state", "Company State");
    ("zi_c_zip", "Company Zip Code");
    ("zi_c_country", "Company Country");
    ("zi_c_location_id", "Company Location ID");
    ("needsContact", "Needs New Contact");
    ("newContactFound", "New Contact Found");
    ("personId", "Contact Person ID");
    ("contactMatchCriteria", "Contact Match Criteria");
    ("company_match_criteria", "Company Match Criteria");
    ("enrichmentStatus", "Enrichment Status");
    ("errorMessage", "Error Message") ].

(** [table.get(name, name)]: the translation both converters apply to a
    name, [header_mapping.get(key, key)] on ingest and
    [csv_mapping.get(key, key)] on egress. *)
Definition translate (table : pydict string string) (name : string) : string :=
  dict_get_default table name name.

(** ** Python values, exceptions and [str.strip] *)

(** The keys of the dictionaries [csv.DictReader] yields: a column name, or
    [None], the reader's [restkey], under which it files the cells of a row
    that is longer than the header. *)
Inductive pykey : Type :=
  | KStr (s : string)
  | KNone.

(** The values of those dictionaries: a cell, [None] (the reader's
    [restval], for a column the row is too short to reach), or the list of
    surplus cells filed under [restkey]. *)
Inductive pyval : Type :=
  | VStr (s : string)
  | VNone
  | VList (l : list string).

#[global] Instance pykey_eq_dec : EqDecision pykey.
Proof. solve_decision. Defined.
#[global] Instance pyval_eq_dec : EqDecision pyval.
Proof. solve_decision. Defined.

Inductive pyexn : Type :=
  | AttributeError
  | ValueError.

Inductive result (A : Type) : Type :=
  | Ok (a : A)
  | Raise (e : pyexn).
Arguments Ok {A} a.
Arguments Raise {A} e.

#[global] Instance result_ret : MRet result := @Ok.
#[global] Instance result_bind : MBind result := λ A B f m,
  match m with
  | Ok a => f a
  | Raise e => Raise e
  end.

(** [c.isspace()] for a code point below 256. *)
Definition isspace (c : Ascii.ascii) : bool :=
  let n := Ascii.N_of_ascii c in
  ((9 <=? n) && (n <=? 13) || (28 <=? n) && (n <=? 32)
   || (n =? 133) || (n =? 160))%N.

Fixpoint lstrip (s : string) : string :=
  match s with
  | EmptyString => EmptyString
  | String c s' => if isspace c then lstrip s' else s
  end.

Definition rstrip (s : string) : string := String.rev (lstrip (String.rev s)).

(** [s.strip()] *)
Definition strip (s : string) : string := rstrip (lstrip s).

(** The truth value of a [str]: it is not empty. *)
Definition str_truthy (s : string) : bool := bool_decide (s ≠ "").

(** ** [csv.DictReader] *)

(** The dictionary [DictReader.__next__] builds for one row:
    [dict(zip(fieldnames, row))], then the surplus cells under [restkey]
    when the row is longer than the header, or [restval] for every column
    the row is too short to reach. *)
Definition dictreader_row (fieldnames row : list string) : pydict pykey pyval :=
  let d := dict_of_pairs (zip (KStr <$> fieldnames) (VStr <$> row)) in
  let lf := length fieldnames in
  let lr := length row in
  if decide (lf < lr) then dict_set d KNone (VList (drop lf row))
  else if decide (lr < lf) then
    foldl (λ d key, dict_set d (KStr key) VNone) d (drop lr fieldnames)
  else d.

(** Iterating a [DictReader]: the first row of the file is the header, and
    of the rows after it those equal to [[]] (empty lines) are passed
    over. *)
Definition DictReader (rows : list (list string)) : list (pydict pykey pyval) :=
  match rows with
  | [] => []
  | fieldnames :: body =>
      dictreader_row fieldnames <$> filter (λ row, row ≠ []) body
  end.

(** ** [csv_to_json] *)

(** [bool((v or "").strip())]: [None] and the empty string give way to
    [""]; a non-empty list is kept by [or] and has no [strip]. *)
Definition strip_truthy (v : pyval) : result bool :=
  match v with
  | VStr s => Ok (str_truthy (strip s))
  | VNone => Ok false
  | VList [] => Ok false
  | VList (_ :: _) => Raise AttributeError
  end.

(** [any((v or "").strip() for v in values)]: the generator is consumed
    from the left and no further than the first true element. *)
Fixpoint any_strip (values : list pyval) : result bool :=
  match values with
  | [] => Ok false
  | v :: values' =>
      b ← strip_truthy v;
      if b : bool then Ok true else any_strip values'
  end.

(** [header_mapping.get(key, key)] at a key of a reader dictionary: [None]
    is no key of the table and comes back as it is. *)
Definition ingest_key (key : pykey) : pykey :=
  match key with
  | KStr s => KStr (translate header_mapping s)
  | KNone => KNone
  end.

(** The body of the loop after the blank check: [mapped_row] filled in key
    by key, then [mapped_row.update(new_json_values)]. *)
Definition mapped_row (row : pydict pykey pyval) : pydict pykey pyval :=
  dict_update
    (dict_of_pairs ((λ kv, (ingest_key kv.1, kv.2)) <$> row))
    ((λ kv, (KStr kv.1, VStr kv.2)) <$> new_json_values).

(** [for row in csv_reader: ...], with [data] the list being appended to. *)
Fixpoint csv_to_json_loop (csv_reader : list (pydict pykey pyval))
    (data : list (pydict pykey pyval)) : result (list (pydict pykey pyval)) :=
  match csv_reader with
  | [] => Ok data
  | row :: rest =>
      b ← any_strip (dict_values row);
      if b : bool then csv_to_json_loop rest (data ++ [mapped_row row])
      else csv_to_json_loop rest data
  end.

(** [csv_to_json], up to the list it hands to [json.dump]; an exception
    raised in the loop leaves the function before the file is written. *)
Definition csv_to_json (rows : list (list string))
    : result (list (pydict pykey pyval)) :=
  csv_to_json_loop (DictReader rows) [].

(** ** The JSON file

    [json.dump] writes a dictionary as an object whose members follow the
    dictionary's order; a [str] key is the member's name and the key [None]
    is written as the name [null].  [json.load] builds each dictionary from
    the members in order, a repeated name replacing the earlier value.
    Strings, [None] and lists of strings come back as they were. *)
Definition json_key (key : pykey) : string :=
  match key with
  | KStr s => s
  | KNone => "null"
  end.

Definition json_record (record : pydict pykey pyval) : pydict string pyval :=
  dict_of_pairs ((λ kv, (json_key kv.1, kv.2)) <$> record).

Definition json_dump_load (data : list (pydict pykey pyval))
    : list (pydict string pyval) :=
  json_record <$> data.

(** ** [count_records] *)

(** [any((field or "").strip() for field in row)] on a row of [csv.reader],
    whose fields are all of type [str]. *)
Definition any_field (row : list string) : bool :=
  existsb (λ field, str_truthy (strip field)) row.

(** [count_records], up to the number it prints: [next(reader, None)] drops
    the header if there is one, and the rest is summed. *)
Definition count_records (rows : list (list string)) : nat :=
  match rows with
  | [] => 0
  | _ :: reader => sum_list ((λ _, 1) <$> filter (λ row, any_field row) reader)
  end.

(** ** [json_to_csv]

    The document is the list of dictionaries [json.load] returns.  Nothing
    in the function looks at a value, so the values are of any type [V];
    [restval] is what [csv.DictWriter] writes where a row has no value for
    a column (the empty string, by the writer's default). *)

Section json_to_csv.
Context {V : Type} (restval : V).

(** [all_keys], after the first loop. *)
Definition all_keys (data : list (pydict string V)) : gset string :=
  foldl (λ acc entry, acc ∪ list_to_set (dict_keys entry)) ∅ data.

(** [[k for k in csv_mapping if k in all_keys]] *)
Definition mapped_keys (data : list (pydict string V)) : list string :=
  filter (λ k, k ∈ all_keys data) (dict_keys csv_mapping).

(** One turn of the inner loop on the pair [(seen, unmapped_keys)]. *)
Definition unmapped_step (st : gset string * list string) (key : string)
    : gset string * list string :=
  if decide (key ∈ st.1) then st else ({[key]} ∪ st.1, st.2 ++ [key]).

(** [unmapped_keys], after the second loop, which starts from
    [seen = set(mapped_keys)]. *)
Definition unmapped_keys (data : list (pydict string V)) : list string :=
  (foldl (λ st entry, foldl unmapped_step st (dict_keys entry))
     (list_to_set (mapped_keys data), []) data).2.

Definition combined_keys (data : list (pydict string V)) : list string :=
  mapped_keys data ++ unmapped_keys data.

(** [[csv_mapping.get(key, key) for key in combined_keys]] *)
Definition headers (data : list (pydict string V)) : list string :=
  translate csv_mapping <$> combined_keys data.

(** [{csv_mapping.get(k, k): v for k, v in entry.items()}] *)
Definition egress_row (entry : pydict string V) : pydict string V :=
  dict_of_pairs ((λ kv, (translate csv_mapping kv.1, kv.2)) <$> entry).

(** [DictWriter._dict_to_list] with [extrasaction="raise"]: a key that is
    no field name is an error; otherwise the row is read off the
    dictionary along the field names. *)
Definition dict_to_list (fieldnames : list string) (rowdict : pydict string V)
    : result (list V) :=
  if decide (Forall (λ k, k ∈ fieldnames) (dict_keys rowdict))
  then Ok ((λ key, dict_get_default rowdict key restval) <$> fieldnames)
  else Raise ValueError.

(** [for entry in data: csv_writer.writerow(row)] *)
Fixpoint writerows (fieldnames : list string) (data : list (pydict string V))
    : result (list (list V)) :=
  match data with
  | [] => Ok []
  | entry :: rest =>
      cells ← dict_to_list fieldnames (egress_row entry);
      rows ← writerows fieldnames rest;
      Ok (cells :: rows)
  end.

(** [json_to_csv]: the header row and the data rows given to the writer. *)
Definition json_to_csv (data : list (pydict string V))
    : result (list string * list (list V)) :=
  rows ← writerows (headers data) data;
  Ok (headers data, rows).
End json_to_csv.

(** ** The properties, in the words of the specification *)

(** A cell that is not empty after trimming; a row with such a cell. *)
Definition nonblank_cell (cell : string) : Prop := strip cell ≠ "".
Definition nonblank_row (row : list string) : Prop := Exists nonblank_cell row.

#[global] Instance nonblank_cell_dec cell : Decision (nonblank_cell cell).
Proof. unfold nonblank_cell. apply _. Defined.
#[global] Instance nonblank_row_dec row : Decision (nonblank_row row).
Proof. unfold nonblank_row. apply _. Defined.

(** A string that is whitespace throughout. *)
Fixpoint all_space (s : string) : bool :=
  match s with
  | EmptyString => true
  | String c s' => isspace c && all_space s'
  end.

(** The elements of a list in the order of their first appearance. *)
Fixpoint first_appearance (l : list string) : list string :=
  match l with
  | [] => []
  | x :: l' => x :: filter (λ y, y ≠ x) (first_appearance l')
  end.

(** Step 1 of the column order: the union of the field names of all
    records, in order of first appearance across the whole sequence. *)
Definition field_union {V : Type} (data : list (pydict string V)) : list string :=
  first_appearance (concat (dict_keys <$> data)).

(** Steps 2 and 3: group (a), the keys of the egress table that are in the
    union, in the table's order, and group (b), the other names of the
    union in order of first appearance; (a) is translated, (b) is not. *)
Definition group_a {V : Type} (data : list (pydict string V)) : list string :=
  filter (λ k, k ∈ field_union data) (dict_keys csv_mapping).
Definition group_b {V : Type} (data : list (pydict string V)) : list string :=
  filter (λ k, k ∉ dict_keys csv_mapping) (field_union data).
Definition header_spec {V : Type} (data : list (pydict string V)) : list string :=
  (translate csv_mapping <$> group_a data) ++ group_b data.

(** The CSV inputs on which the dictionaries of [csv.DictReader] hold the
    cells of the rows and nothing else: the column names are pairwise
    distinct and no data row is longer than the header. *)
Definition well_formed_csv (rows : list (list string)) : Prop :=
  match rows with
  | [] => True
  | fieldnames :: body =>
      NoDup fieldnames ∧ Forall (λ row, length row ≤ length fieldnames) body
  end.

#[global] Instance well_formed_csv_dec rows : Decision (well_formed_csv rows).
Proof. destruct rows; simpl; apply _. Defined.


(** The pairs [csv.DictReader] assembles for a row that is no longer than a
    header of distinct names: the cells under their columns, then [None]
    under every column the row does not reach. *)
Definition reader_pairs (fieldnames row : list string) : list (pykey * pyval) :=
  zip (KStr <$> fieldnames) (VStr <$> row)
  ++ ((λ key, (KStr key, VNone)) <$> drop (length row) fieldnames).

(** The rows [csv.DictWriter] is given when it refuses none of them: each
    row dictionary read along the field names. *)
Definition written_rows {V : Type} (restval : V) (fieldnames : list string)
    (data : list (pydict string V)) : list (list V) :=
  (λ entry, (λ key, dict_get_default (egress_row entry) key restval) <$> fieldnames)
    <$> data.

(** ** Paths

    The file names the functions compute, with the parts of [os.path] and
    [str] they go through.  A slice [s[a:b]] is taken at indices that the
    callers have made sure are not negative. *)

Import (notations) Stdlib.Strings.Ascii.

(** A [str] as the list of its characters, and back. *)
Fixpoint chars (s : string) : list Ascii.ascii :=
  match s with
  | EmptyString => []
  | String a s' => a :: chars s'
  end.

Fixpoint of_chars (l : list Ascii.ascii) : string :=
  match l with
  | [] => EmptyString
  | a :: l' => String a (of_chars l')
  end.

(** [s.rfind(c)] for a one-character [c]: scanning from the left, [last]
    is the index of the latest occurrence so far, -1 when there is none. *)
Fixpoint rfind_from (c : Ascii.ascii) (l : list Ascii.ascii) (i last : Z) : Z :=
  match l with
  | [] => last
  | a :: l' => rfind_from c l' (i + 1) (if decide (a = c) then i else last)
  end.

Definition rfind (c : Ascii.ascii) (s : string) : Z := rfind_from c (chars s) 0 (-1).

(** [s[a:b]], [s[:b]] and [s[a:]] *)
Definition str_slice (a b : Z) (s : string) : string :=
  of_chars (take (Z.to_nat (b - a)) (drop (Z.to_nat a) (chars s))).
Definition str_prefix (b : Z) (s : string) : string := str_slice 0 b s.
Definition str_suffix (a : Z) (s : string) : string :=
  of_chars (drop (Z.to_nat a) (chars s)).

(** [genericpath._splitext(p, sep, altsep, extsep)]: the extension starts
    at the last [extsep] that comes after the last separator, unless the
    file name has nothing but [extsep] before it (the loop of the function
    returns at the first other character it meets between the two). *)
Definition genericpath_splitext (p : string) (sep : Ascii.ascii)
    (altsep : option Ascii.ascii) (extsep : Ascii.ascii) : string * string :=
  let sepIndex :=
    match altsep with
    | Some alt => Z.max (rfind sep p) (rfind alt p)
    | None => rfind sep p
    end in
  let dotIndex := rfind extsep p in
  if decide (sepIndex < dotIndex)%Z then
    if decide (Exists (λ ch, ch ≠ extsep) (chars (str_slice (sepIndex + 1) dotIndex p)))
    then (str_prefix dotIndex p, str_suffix dotIndex p)
    else (p, "")
  else (p, "").

(** [os.path] is [posixpath] or [ntpath], by the platform. *)
Inductive platform : Type :=
  | Posix
  | Nt.

(** [os.path.splitext(p)] *)
Definition os_path_splitext (os : platform) (p : string) : string * string :=
  match os with
  | Posix => genericpath_splitext p "/"%char None "."%char
  | Nt => genericpath_splitext p "\"%char (Some "/"%char) "."%char
  end.

(** The characters [os.path] takes for separators. *)
Definition separators (os : platform) : list Ascii.ascii :=
  match os with
  | Posix => ["/"%char]
  | Nt => ["\"%char; "/"%char]
  end.

(** [output_json_filename] of [csv_to_json] and [csv_file_path] of
    [json_to_csv]. *)
Definition output_json_filename (os : platform) (input_csv_filename : string) : string :=
  (os_path_splitext os input_csv_filename).1 +:+ ".json".

Definition csv_file_path (os : platform) (input_json : string) : string :=
  (os_path_splitext os input_json).1 +:+ " - Enhanced.csv".

(** [s.rsplit(".", 1)[0]]: [s] up to its last dot, all of [s] if it has
    none. *)
Definition rsplit_dot_head (s : string) : string :=
  let i := rfind "."%char s in
  if decide (i < 0)%Z then s else str_prefix i s.

(** In [main]: the path [input_json] handed to every pass after
    [csv_to_json], and the output file named in the closing message. *)
Definition main_input_json (input_csv : string) : string :=
  rsplit_dot_head input_csv +:+ ".json".

Definition main_output_file (input_json : string) : string :=
  rsplit_dot_head input_json +:+ " - enhanced.csv".

(** The separator index of [genericpath._splitext], for both platforms. *)
Definition sep_index (os : platform) (p : string) : Z :=
  match os with
  | Posix => rfind "/"%char p
  | Nt => Z.max (rfind "\"%char p) (rfind "/"%char p)
  end.

(** * Proofs *)

(** ** Dictionaries *)

Section pydict_facts.
Context {K V : Type} `{EqDecision K}.
Implicit Types (d : pydict K V) (k : K) (v : V).

Lemma dict_get_set d k v k' :
  dict_get (dict_set d k v) k' = if decide (k = k') then Some v else dict_get d k'.
Proof.
  induction d as [|[k0 v0] d IH]; simpl.
  - done.
  - destruct (decide (k0 = k)) as [->|Hne]; simpl.
    + by destruct (decide (k = k')).
    + rewrite IH. destruct (decide (k0 = k')) as [->|]; [|done].
      by rewrite decide_False.
Qed.

Lemma dict_keys_set d k v :
  dict_keys (dict_set d k v) =
    if decide (k ∈ dict_keys d) then dict_keys d else dict_keys d ++ [k].
Proof.
  unfold dict_keys. induction d as [|[k0 v0] d IH].
  - case_decide as Hin; [by apply elem_of_nil in Hin|done].
  - cbn [dict_set]. destruct (decide (k0 = k)) as [->|Hne].
    + rewrite decide_True; [done|]. rewrite fmap_cons. left.
    + rewrite !fmap_cons, IH. cbn [fst].
      destruct (decide (k ∈ d.*1)) as [Hin|Hnin].
      * rewrite decide_True; [done|]. by right.
      * rewrite decide_False; [done|].
        intros [?|?]%elem_of_cons; [congruence|done].
Qed.

Lemma dict_set_NoDup d k v : NoDup (dict_keys d) → NoDup (dict_keys (dict_set d k v)).
Proof.
  intros Hd. rewrite dict_keys_set. case_decide; [done|].
  apply NoDup_app. split_and!; [done| |apply NoDup_singleton].
  intros x Hx ->%list_elem_of_singleton. done.
Qed.

Lemma dict_update_NoDup d other :
  NoDup (dict_keys d) → NoDup (dict_keys (dict_update d other)).
Proof.
  unfold dict_update. revert d.
  induction other as [|[k v] other IH]; intros d Hd; simpl; [done|].
  apply IH. by apply dict_set_NoDup.
Qed.

Lemma dict_of_pairs_NoDup (pairs : list (K * V)) :
  NoDup (dict_keys (dict_of_pairs pairs)).
Proof. apply dict_update_NoDup. constructor. Qed.

(** An update is read back from its last pair for the key, and from the
    dictionary updated where it has none. *)
Lemma dict_get_update d other k :
  dict_get (dict_update d other) k =
    match dict_get (reverse other) k with
    | Some v => Some v
    | None => dict_get d k
    end.
Proof.
  unfold dict_update. revert d.
  induction other as [|[k0 v0] other IH] using rev_ind; intros d; [done|].
  rewrite foldl_snoc, reverse_snoc. simpl.
  rewrite dict_get_set. destruct (decide (k0 = k)); [done|apply IH].
Qed.

Lemma dict_get_of_pairs (pairs : list (K * V)) k :
  dict_get (dict_of_pairs pairs) k = dict_get (reverse pairs) k.
Proof.
  unfold dict_of_pairs. rewrite dict_get_update. simpl.
  by destruct (dict_get (reverse pairs) k).
Qed.

Lemma dict_get_Some_elem d k v : dict_get d k = Some v → (k, v) ∈ d.
Proof.
  induction d as [|[k0 v0] d IH]; simpl; [done|].
  destruct (decide (k0 = k)) as [->|]; [intros [= ->]; left|].
  intros ?. right. auto.
Qed.

Lemma dict_get_None d k : dict_get d k = None ↔ k ∉ dict_keys d.
Proof.
  unfold dict_keys. induction d as [|[k0 v0] d IH]; simpl.
  - split; [intros _ ?%elem_of_nil; done|done].
  - rewrite not_elem_of_cons. destruct (decide (k0 = k)) as [->|];
      [split; [done|intros [? _]; done]|].
    rewrite IH. intuition congruence.
Qed.

(** A key all of whose pairs carry one value reads as that value, in
    whatever order the pairs come. *)
Lemma dict_get_agree d k v :
  (k, v) ∈ d → (∀ v', (k, v') ∈ d → v' = v) → dict_get d k = Some v.
Proof.
  intros Hin Hall. destruct (dict_get d k) as [v'|] eqn:Hget.
  - f_equal. apply Hall. by apply dict_get_Some_elem.
  - apply dict_get_None in Hget. destruct Hget.
    unfold dict_keys. by apply (list_elem_of_fmap_2 fst _ (k, v)).
Qed.

Lemma dict_elem_NoDup d k v v' :
  NoDup (dict_keys d) → (k, v) ∈ d → (k, v') ∈ d → v = v'.
Proof.
  unfold dict_keys. induction d as [|[k0 v0] d IH]; simpl.
  - by intros _ ?%elem_of_nil.
  - intros [Hk0 Hd]%NoDup_cons [Heq|Hin]%elem_of_cons [Heq'|Hin']%elem_of_cons.
    + congruence.
    + injection Heq as -> ->. destruct Hk0.
      by apply (list_elem_of_fmap_2 fst _ (k0, v')).
    + injection Heq' as -> ->. destruct Hk0.
      by apply (list_elem_of_fmap_2 fst _ (k0, v)).
    + auto.
Qed.

Lemma dict_get_elem_NoDup d k v :
  NoDup (dict_keys d) → (k, v) ∈ d → dict_get d k = Some v.
Proof.
  intros Hd Hin. apply dict_get_agree; [done|].
  intros v' Hin'. by apply (dict_elem_NoDup d k).
Qed.

(** Pairs with pairwise distinct keys make the dictionary that lists
    them. *)
Lemma dict_update_distinct d other :
  NoDup (dict_keys d ++ other.*1) → dict_update d other = d ++ other.
Proof.
  unfold dict_update, dict_keys. revert d.
  induction other as [|[k v] other IH]; intros d Hnd; simpl.
  - by rewrite app_nil_r.
  - assert (dict_set d k v = d ++ [(k, v)]) as ->.
    { apply NoDup_app in Hnd as (_ & Hdisj & _).
      assert (k ∉ d.*1) as Hk by (intros ?; eapply Hdisj; [done|left]).
      clear -Hk. induction d as [|[k0 v0] d IH]; simpl; [done|].
      simpl in Hk. apply not_elem_of_cons in Hk as [? ?].
      rewrite decide_False by done. f_equal. auto. }
    rewrite IH; [by rewrite <-app_assoc|].
    rewrite fmap_app. simpl. by rewrite <-app_assoc.
Qed.

Lemma dict_of_pairs_distinct (pairs : list (K * V)) :
  NoDup pairs.*1 → dict_of_pairs pairs = pairs.
Proof. intros ?. unfold dict_of_pairs. by rewrite dict_update_distinct. Qed.

(** The keys of an update: those it had, then the new ones. *)
Lemma dict_keys_update_elem d other k :
  k ∈ dict_keys (dict_update d other) ↔ k ∈ dict_keys d ∨ k ∈ other.*1.
Proof.
  unfold dict_update. revert d.
  induction other as [|[k0 v0] other IH]; intros d; simpl.
  - rewrite elem_of_nil. tauto.
  - rewrite IH, dict_keys_set, elem_of_cons. simpl. case_decide.
    + intuition congruence.
    + rewrite elem_of_app, list_elem_of_singleton. intuition congruence.
Qed.

Lemma dict_get_app d1 d2 k :
  dict_get (d1 ++ d2) k =
    match dict_get d1 k with
    | Some v => Some v
    | None => dict_get d2 k
    end.
Proof.
  induction d1 as [|[k0 v0] d1 IH]; simpl; [done|]. by case_decide.
Qed.

(** The last pair for a key is the one a dictionary built from the pairs
    keeps. *)
Lemma dict_get_reverse_lookup (pairs : list (K * V)) j k v :
  pairs !! j = Some (k, v) → k ∉ (drop (S j) pairs).*1 →
  dict_get (reverse pairs) k = Some v.
Proof.
  intros Hj Hlater. rewrite <-(take_drop_middle _ _ _ Hj).
  rewrite reverse_app, reverse_cons, <-app_assoc, dict_get_app.
  assert (dict_get (reverse (drop (S j) pairs)) k = None) as ->.
  { apply dict_get_None. unfold dict_keys. by rewrite fmap_reverse, elem_of_reverse. }
  simpl. by rewrite decide_True.
Qed.
End pydict_facts.

Lemma rekey_keys {K K' V : Type} (f : K → K') (d : list (K * V)) :
  ((λ kv, (f kv.1, kv.2)) <$> d).*1 = f <$> d.*1.
Proof. by rewrite <-!list_fmap_compose. Qed.

(** Re-keying a dictionary, as both converters do: a key whose new name no
    other key of the dictionary is given reads under the new name as it
    read under the old. *)
Lemma dict_rekey_get {K K' V : Type} `{EqDecision K, EqDecision K'}
    (f : K → K') (d : pydict K V) k v :
  NoDup (dict_keys d) → dict_get d k = Some v →
  (∀ k', k' ∈ dict_keys d → f k' = f k → k' = k) →
  dict_get (dict_of_pairs ((λ kv, (f kv.1, kv.2)) <$> d)) (f k) = Some v.
Proof.
  intros Hnd Hget Hinj. rewrite dict_get_of_pairs.
  apply dict_get_Some_elem in Hget.
  apply dict_get_agree.
  - apply elem_of_reverse.
    by apply (list_elem_of_fmap_2 (λ kv, (f kv.1, kv.2)) _ (k, v)).
  - intros v' [[k' w] [[= Hk Hv] Hin']]%elem_of_reverse%list_elem_of_fmap.
    simpl in Hk, Hv. subst v'. assert (k' = k) as ->.
    { apply Hinj; [|done]. by apply (list_elem_of_fmap_2 fst _ (k', w)). }
    by apply (dict_elem_NoDup d k).
Qed.

(** ** The tables *)

Lemma translate_mapped table x y : dict_get table x = Some y → translate table x = y.
Proof. unfold translate, dict_get_default. by intros ->. Qed.

Lemma translate_absent table x : x ∉ dict_keys table → translate table x = x.
Proof.
  intros Hx%dict_get_None. unfold translate, dict_get_default. by rewrite Hx.
Qed.

(** C6.  Translation is a lookup with the name itself as fallback: for
    every table (so for [header_mapping] on ingest and for [csv_mapping]
    on egress) and every name [x] that is no key of it, [translate]
    returns [x] unchanged.  [translate] is a total function, so there is
    no error case. *)
Theorem translate_unmapped_identity (table : pydict string string) (x : string) :
  x ∉ dict_keys table → translate table x = x.
Proof. apply translate_absent. Qed.

Lemma translate_unmapped_identity_witness :
  translate header_mapping "Notes" = "Notes" ∧
  translate csv_mapping "Supplier Company" = "Supplier Company".
Proof.
  split; apply translate_unmapped_identity; compute_done.
Defined.

(** C8.  Every value of the ingest table [header_mapping] is a key of the
    egress table [csv_mapping], and the egress table sends it back to the
    column name it came from. *)
Theorem header_mapping_values_are_csv_mapping_keys :
  Forall (λ v, v ∈ dict_keys csv_mapping) (dict_values header_mapping) ∧
  Forall (λ kv, dict_get csv_mapping kv.2 = Some kv.1) header_mapping.
Proof. split; compute_done. Qed.

(** C9, as the claim has it, fails: the ingest table does not have
    fourteen entries. *)
Lemma header_mapping_not_fourteen :
  length header_mapping = 13 ∧ length header_mapping ≠ 14.
Proof. split; compute_done. Qed.

(** C9, amended.  [header_mapping] has exactly thirteen entries and
    [csv_mapping] exactly thirty-seven, all under distinct keys; the keys
    of [csv_mapping] cover the ingest vocabulary (every value of
    [header_mapping]) and the enrichment-only fields (every key of
    [new_json_values]), and beyond those hold [company_match_criteria]
    alone. *)
Theorem table_sizes :
  length header_mapping = 13 ∧ NoDup (dict_keys header_mapping) ∧
  length csv_mapping = 37 ∧ NoDup (dict_keys csv_mapping) ∧
  dict_values header_mapping ⊆ dict_keys csv_mapping ∧
  dict_keys new_json_values ⊆ dict_keys csv_mapping ∧
  filter (λ k, k ∉ dict_values header_mapping ++ dict_keys new_json_values)
    (dict_keys csv_mapping) = ["company_match_criteria"].
Proof.
  split_and!; compute_done.
Qed.

(** ** [csv_to_json]: the records it emits *)

(** The loop only appends, and what it appends is [mapped_row] of a
    dictionary of the reader. *)
Lemma csv_to_json_loop_elem csv_reader data0 data record :
  csv_to_json_loop csv_reader data0 = Ok data → record ∈ data →
  record ∈ data0 ∨ ∃ row, row ∈ csv_reader ∧ record = mapped_row row.
Proof.
  revert data0. induction csv_reader as [|row rest IH]; intros data0; simpl.
  - intros [= <-] ?. by left.
  - destruct (any_strip (dict_values row)) as [[|]|e]; simpl; [| |done].
    + intros Hloop Hin. destruct (IH _ Hloop Hin) as [Hin0|(row' & ? & ?)].
      * apply elem_of_app in Hin0 as [?| ->%list_elem_of_singleton]; [by left|].
        right. exists row. split; [left|done].
      * right. exists row'. split; [by right|done].
    + intros Hloop Hin. destruct (IH _ Hloop Hin) as [?|(row' & ? & ?)]; [by left|].
      right. exists row'. split; [by right|done].
Qed.

Lemma mapped_row_NoDup row : NoDup (dict_keys (mapped_row row)).
Proof. apply dict_update_NoDup, dict_of_pairs_NoDup. Qed.

(** The defaults win in [mapped_row], whatever the row held. *)
Lemma mapped_row_default row k v :
  (k, v) ∈ new_json_values → dict_get (mapped_row row) (KStr k) = Some (VStr v).
Proof.
  intros Hin. unfold mapped_row. rewrite dict_get_update.
  assert (Forall (λ kv,
    dict_get (reverse ((λ kv, (KStr kv.1, VStr kv.2)) <$> new_json_values))
      (KStr kv.1) = Some (VStr kv.2)) new_json_values) as Hall by compute_done.
  rewrite Forall_forall in Hall. specialize (Hall _ Hin). cbn [fst snd] in Hall.
  by rewrite Hall.
Qed.

(** Reading a record back from the JSON file: a name that only one key is
    written as reads as that key did. *)
Lemma json_record_get (record : pydict pykey pyval) key v :
  NoDup (dict_keys record) → dict_get record key = Some v →
  (∀ key', key' ∈ dict_keys record → json_key key' = json_key key → key' = key) →
  dict_get (json_record record) (json_key key) = Some v.
Proof. apply dict_rekey_get. Qed.

(** C2.  Every record [csv_to_json] emits holds every key of
    [new_json_values] with its default value, in the list the function
    builds and in the JSON file it writes, whatever the row supplied under
    a column of that name; so every record maps [enrichmentStatus] to
    [Success]. *)
Theorem defaults_overwrite rows data :
  csv_to_json rows = Ok data →
  (∀ record k v, record ∈ data → (k, v) ∈ new_json_values →
     dict_get record (KStr k) = Some (VStr v)) ∧
  (∀ record k v, record ∈ json_dump_load data → (k, v) ∈ new_json_values →
     dict_get record k = Some (VStr v)) ∧
  (∀ record, record ∈ json_dump_load data →
     dict_get record "enrichmentStatus" = Some (VStr "Success")).
Proof.
  intros Hrun.
  assert (∀ record, record ∈ data → ∃ row, record = mapped_row row) as Hrec.
  { intros record Hin.
    destruct (csv_to_json_loop_elem _ _ _ _ Hrun Hin) as [[]%elem_of_nil|(row & _ & ?)].
    by exists row. }
  assert (∀ record k v, record ∈ json_dump_load data → (k, v) ∈ new_json_values →
     dict_get record k = Some (VStr v)) as Hjson.
  { intros record' k v [record [-> Hin]]%list_elem_of_fmap Hkv.
    destruct (Hrec _ Hin) as [row ->].
    apply (json_record_get _ (KStr k)).
    - apply mapped_row_NoDup.
    - by apply mapped_row_default.
    - intros [s|] _ Hs; simpl in Hs; [by rewrite Hs|].
      assert (Forall (λ kv, kv.1 ≠ "null") new_json_values) as Hall by compute_done.
      rewrite Forall_forall in Hall. by destruct (Hall _ Hkv). }
  split_and!.
  - intros record k v Hin Hkv. destruct (Hrec _ Hin) as [row ->].
    by apply mapped_row_default.
  - done.
  - intros record Hin. apply Hjson; [done|]. compute_done.
Qed.

Lemma defaults_overwrite_witness :
  dict_get (dictreader_row ["Supplier Company"; "enrichmentStatus"] ["Acme"; "Failed"])
    (KStr "enrichmentStatus") = Some (VStr "Failed") ∧
  dict_get
    (json_record
       (mapped_row
          (dictreader_row ["Supplier Company"; "enrichmentStatus"] ["Acme"; "Failed"])))
    "enrichmentStatus" = Some (VStr "Success").
Proof.
  split; [compute_done|].
  destruct (defaults_overwrite
              [["Supplier Company"; "enrichmentStatus"]; ["Acme"; "Failed"]]
              [mapped_row
                 (dictreader_row ["Supplier Company"; "enrichmentStatus"]
                    ["Acme"; "Failed"])])
    as (_ & _ & Hstatus); [compute_done|].
  apply Hstatus. left.
Defined.

(** ** [json_to_csv]: the column order *)

(** Equality of two sets of names built from unions and singletons. *)
Ltac gset_eq :=
  apply set_eq; intros ?;
  rewrite ?elem_of_union, ?elem_of_singleton, ?elem_of_list_to_set;
  intuition congruence.

Lemma filter_iff_elem {A} (P Q : A → Prop)
    `{!∀ x, Decision (P x), !∀ x, Decision (Q x)} (l : list A) :
  (∀ x, x ∈ l → P x ↔ Q x) → filter P l = filter Q l.
Proof.
  induction l as [|a l IH]; intros Hiff; [done|].
  rewrite !filter_cons, IH by (intros x ?; apply Hiff; by right).
  apply decide_ext, Hiff. left.
Qed.

Lemma elem_of_concat {A} (ls : list (list A)) x :
  x ∈ concat ls ↔ ∃ l, l ∈ ls ∧ x ∈ l.
Proof.
  induction ls as [|l0 ls IH]; simpl.
  - split; [by intros ?%elem_of_nil|by intros (? & ?%elem_of_nil & _)].
  - rewrite elem_of_app, IH. split.
    + intros [?|(l & ? & ?)]; [exists l0; split; [left|done]|].
      exists l. split; [by right|done].
    + intros (l & [->|?]%elem_of_cons & ?); [by left|right; by exists l].
Qed.

Lemma first_appearance_elem l x : x ∈ first_appearance l ↔ x ∈ l.
Proof.
  induction l as [|y l IH]; simpl; [done|].
  rewrite !elem_of_cons, list_elem_of_filter, IH.
  destruct (decide (x = y)); intuition congruence.
Qed.

Lemma first_appearance_NoDup l : NoDup (first_appearance l).
Proof.
  induction l as [|y l IH]; simpl; constructor.
  - rewrite list_elem_of_filter. intros [? _]. congruence.
  - by apply NoDup_filter.
Qed.

(** The inner loop, run over a list of keys: [seen] takes the keys in, and
    [unmapped_keys] grows by those that were not in [seen], in order of
    first appearance. *)
Lemma unmapped_step_foldl (seen : gset string) (acc keys : list string) :
  foldl unmapped_step (seen, acc) keys =
    (seen ∪ list_to_set keys,
     acc ++ filter (λ k, k ∉ seen) (first_appearance keys)).
Proof.
  revert seen acc. induction keys as [|k keys IH]; intros seen acc; simpl.
  - by rewrite app_nil_r, (right_id_L ∅ (∪)).
  - unfold unmapped_step at 2. simpl. destruct (decide (k ∈ seen)) as [Hk|Hk].
    + rewrite IH. f_equal; [gset_eq|]. f_equal.
      rewrite filter_cons_False by (intros Hn; by apply Hn).
      rewrite list_filter_filter. apply list_filter_iff.
      intros x. intuition congruence.
    + rewrite IH. f_equal; [gset_eq|].
      rewrite filter_cons_True by done.
      rewrite <-app_assoc. simpl. do 2 f_equal.
      rewrite list_filter_filter. apply list_filter_iff.
      intros x. rewrite elem_of_union, elem_of_singleton. intuition congruence.
Qed.

Section json_to_csv_facts.
Context {V : Type} (restval : V).
Implicit Types (data : list (pydict string V)) (entry : pydict string V).

Lemma foldl_entries (st : gset string * list string) data :
  foldl (λ st entry, foldl unmapped_step st (dict_keys entry)) st data =
    foldl unmapped_step st (concat (dict_keys <$> data)).
Proof.
  revert st. induction data as [|entry data IH]; intros st; simpl; [done|].
  by rewrite foldl_app, IH.
Qed.

Lemma all_keys_elem data k : k ∈ all_keys data ↔ k ∈ field_union data.
Proof.
  unfold field_union. rewrite first_appearance_elem.
  unfold all_keys.
  assert (∀ acc : gset string,
    k ∈ foldl (λ acc entry, acc ∪ list_to_set (dict_keys entry)) acc data ↔
    k ∈ acc ∨ k ∈ concat (dict_keys <$> data)) as Hgen.
  { induction data as [|entry data IH]; intros acc; simpl.
    - rewrite elem_of_nil. tauto.
    - rewrite IH, elem_of_app, elem_of_union, elem_of_list_to_set. tauto. }
  rewrite Hgen, elem_of_empty. tauto.
Qed.

Lemma mapped_keys_group_a data : mapped_keys data = group_a data.
Proof. apply list_filter_iff. intros k. apply all_keys_elem. Qed.

Lemma unmapped_keys_group_b data : unmapped_keys data = group_b data.
Proof.
  unfold unmapped_keys, group_b.
  rewrite foldl_entries, unmapped_step_foldl. simpl.
  apply filter_iff_elem. intros k Hk.
  rewrite elem_of_list_to_set. unfold mapped_keys.
  rewrite list_elem_of_filter, all_keys_elem. tauto.
Qed.

(** The header row is the one the specification describes. *)
Lemma headers_header_spec data : headers data = header_spec data.
Proof.
  unfold headers, combined_keys, header_spec.
  rewrite fmap_app, mapped_keys_group_a, unmapped_keys_group_b. f_equal.
  rewrite <-(list_fmap_id (group_b data)) at 2.
  apply list_fmap_ext. intros i k Hk%list_elem_of_lookup_2.
  apply list_elem_of_filter in Hk as [Hk _]. by apply translate_absent.
Qed.

(** Every name of the union has its column. *)
Lemma translate_in_headers data k :
  k ∈ field_union data → translate csv_mapping k ∈ headers data.
Proof.
  intros Hk. rewrite headers_header_spec. unfold header_spec.
  apply elem_of_app.
  destruct (decide (k ∈ dict_keys csv_mapping)) as [Hin|Hnin].
  - left. apply list_elem_of_fmap_2. by apply list_elem_of_filter.
  - right. rewrite (translate_absent _ _ Hnin). by apply list_elem_of_filter.
Qed.

Lemma egress_row_keys entry k :
  k ∈ dict_keys (egress_row entry) →
  ∃ k0, k0 ∈ dict_keys entry ∧ k = translate csv_mapping k0.
Proof.
  unfold egress_row, dict_of_pairs. rewrite dict_keys_update_elem.
  intros [[]%elem_of_nil|Hk].
  rewrite <-list_fmap_compose in Hk.
  apply list_elem_of_fmap in Hk as ([k0 v] & -> & Hin).
  exists k0. split; [|done]. by apply (list_elem_of_fmap_2 fst _ (k0, v)).
Qed.

Lemma writerows_covered fieldnames data :
  (∀ entry k, entry ∈ data → k ∈ dict_keys entry →
     translate csv_mapping k ∈ fieldnames) →
  writerows restval fieldnames data = Ok (written_rows restval fieldnames data).
Proof.
  induction data as [|entry data IH]; intros Hcov; simpl; [done|].
  unfold dict_to_list. rewrite decide_True.
  - simpl. rewrite IH; [done|]. intros e k ? ?. apply (Hcov e k); [by right|done].
  - apply Forall_forall. intros k (k0 & Hk0 & ->)%egress_row_keys.
    apply (Hcov entry k0); [left|done].
Qed.

(** [json_to_csv] raises nothing: the header row covers every key of
    every row dictionary, so the writer accepts them all. *)
Lemma json_to_csv_total data :
  json_to_csv restval data =
    Ok (headers data, written_rows restval (headers data) data).
Proof.
  unfold json_to_csv. rewrite writerows_covered; [done|].
  intros entry k Hentry Hk. apply translate_in_headers.
  unfold field_union. apply first_appearance_elem.
  apply elem_of_concat. exists (dict_keys entry). split; [|done].
  by apply list_elem_of_fmap_2.
Qed.
End json_to_csv_facts.

(** C3.  For every document, [json_to_csv] succeeds and its header row is
    the keys of [csv_mapping] that occur in the union of the record keys,
    in the order [csv_mapping] declares them and each translated to its
    column name, followed by the other keys of the union in order of first
    appearance across the records, each as it is. *)
Theorem column_order {V : Type} (restval : V) (data : list (pydict string V)) :
  ∃ rows, json_to_csv restval data = Ok (header_spec data, rows).
Proof.
  exists (written_rows restval (headers data) data).
  rewrite json_to_csv_total. by rewrite headers_header_spec.
Qed.

(** C5, as the claim has it, fails: two documents with one record each,
    holding the same two fields in opposite orders, have the same union of
    field names and different header rows. *)
Lemma header_order_counterexample :
  all_keys [[("x", 1); ("y", 2)]] = all_keys [[("y", 2); ("x", 1)]] ∧
  headers [[("x", 1); ("y", 2)]] = ["x"; "y"] ∧
  headers [[("y", 2); ("x", 1)]] = ["y"; "x"].
Proof. split_and!; compute_done. Qed.

(** C5, amended.  Two documents with the same union of field names get
    header rows that start with the same columns, those of the
    [csv_mapping] keys of the union, whichever record introduced them; the
    columns after that block are the other fields, in each document's own
    order of first appearance.  So the two header rows hold the same names,
    and are identical when those other fields first appear in the same
    order, in particular when every field is a [csv_mapping] key. *)
Theorem header_order_determinism {V W : Type}
    (d1 : list (pydict string V)) (d2 : list (pydict string W)) :
  all_keys d1 = all_keys d2 →
  mapped_keys d1 = mapped_keys d2 ∧
  headers d1 = (translate csv_mapping <$> mapped_keys d1) ++ group_b d1 ∧
  headers d2 = (translate csv_mapping <$> mapped_keys d2) ++ group_b d2 ∧
  headers d1 ≡ₚ headers d2 ∧
  (group_b d1 = group_b d2 → headers d1 = headers d2) ∧
  (Forall (λ k, k ∈ dict_keys csv_mapping) (field_union d1) → headers d1 = headers d2).
Proof.
  intros Hkeys.
  assert (∀ k, k ∈ field_union d1 ↔ k ∈ field_union d2) as Hunion.
  { intros k. by rewrite <-!all_keys_elem, Hkeys. }
  assert (group_a d1 = group_a d2) as Ha by (by apply list_filter_iff).
  assert (group_b d1 ≡ₚ group_b d2) as Hb.
  { apply NoDup_Permutation; try apply NoDup_filter, first_appearance_NoDup.
    intros k. unfold group_b. rewrite !list_elem_of_filter, Hunion. done. }
  rewrite !headers_header_spec, !mapped_keys_group_a. unfold header_spec.
  rewrite Ha.
  split_and!; [done..| | |].
  - by rewrite Hb.
  - by intros ->.
  - intros Hknown. f_equal. rewrite Forall_forall in Hknown.
    assert (∀ {U} (d : list (pydict string U)),
      (∀ k, k ∈ field_union d → k ∈ dict_keys csv_mapping) → group_b d = []) as Hnil.
    { intros U d Hd. unfold group_b.
      induction (field_union d) as [|k l IH]; [done|].
      rewrite filter_cons_False by (intros Hn; apply Hn, Hd; left).
      apply IH. intros k' ?. apply Hd. by right. }
    rewrite !Hnil; [done| |done].
    intros k Hk. by apply Hknown, Hunion.
Qed.

Lemma header_order_determinism_witness :
  headers [[("siteID", 1); ("companyName", 2)]; [("phone", 3)]] =
  headers [[("phone", 1)]; [("companyName", 2); ("siteID", 3)]].
Proof.
  destruct (header_order_determinism
              [[("siteID", 1); ("companyName", 2)]; [("phone", 3)]]
              [[("phone", 1)]; [("companyName", 2); ("siteID", 3)]])
    as (_ & _ & _ & _ & _ & Hsame); [compute_done|].
  apply Hsame. compute_done.
Defined.

(** C10.  There is a document, with one record that holds both the field
    [companyName] and a field named by the column it translates to,
    [Supplier Company], under different values, for which the header row
    of [json_to_csv] names [Supplier Company] twice, the row dictionary
    holds a single entry for the two fields, and the value of
    [companyName] is in no cell of the row that is written. *)
Theorem header_collision :
  ∃ (entry : pydict string pyval) hs row,
    dict_get entry "companyName" = Some (VStr "Acme") ∧
    dict_get entry "Supplier Company" = Some (VStr "Other") ∧
    translate csv_mapping "companyName" = "Supplier Company" ∧
    json_to_csv (VStr "") [entry] = Ok (hs, [row]) ∧
    hs = ["Supplier Company"; "Supplier Company"] ∧
    egress_row entry = [("Supplier Company", VStr "Other")] ∧
    VStr "Acme" ∉ row.
Proof.
  exists [("companyName", VStr "Acme"); ("Supplier Company", VStr "Other")],
    ["Supplier Company"; "Supplier Company"], [VStr "Other"; VStr "Other"].
  split_and!; compute_done.
Qed.

(** ** [csv.DictReader] on a well-formed file *)

Lemma zip_fst_take {A B} (l : list A) (k : list B) : (zip l k).*1 = take (length k) l.
Proof.
  revert k. induction l as [|x l IH]; intros [|y k]; simpl; [done..|].
  by rewrite IH.
Qed.

Lemma reader_pairs_keys fieldnames row :
  length row ≤ length fieldnames → (reader_pairs fieldnames row).*1 = KStr <$> fieldnames.
Proof.
  intros Hlen. unfold reader_pairs.
  rewrite fmap_app, zip_fst_take, length_fmap, <-list_fmap_compose.
  transitivity (take (length row) (KStr <$> fieldnames)
                ++ drop (length row) (KStr <$> fieldnames)); [|apply take_drop].
  f_equal. by rewrite <-fmap_drop.
Qed.

Lemma reader_pairs_values fieldnames row :
  length row ≤ length fieldnames →
  (reader_pairs fieldnames row).*2 =
    (VStr <$> row) ++ replicate (length fieldnames - length row) VNone.
Proof.
  intros Hlen. unfold reader_pairs.
  rewrite fmap_app, snd_zip by (rewrite !length_fmap; lia).
  f_equal. rewrite <-list_fmap_compose.
  rewrite <-(length_drop fieldnames (length row)).
  induction (drop (length row) fieldnames) as [|x l IH]; [done|].
  rewrite fmap_cons. simpl. by f_equal.
Qed.

Lemma dictreader_row_well_formed fieldnames row :
  NoDup fieldnames → length row ≤ length fieldnames →
  dictreader_row fieldnames row = reader_pairs fieldnames row.
Proof.
  intros Hnd Hlen. unfold dictreader_row, reader_pairs.
  assert (NoDup (KStr <$> fieldnames)) as Hnd'.
  { apply NoDup_fmap_2; [|done]. by intros ?? [=]. }
  rewrite decide_False by lia.
  rewrite dict_of_pairs_distinct.
  2:{ rewrite zip_fst_take. eapply sublist_NoDup; [done|apply sublist_take]. }
  destruct (decide (length row < length fieldnames)) as [Hlt|Hge].
  - rewrite <-(foldl_fmap (λ d kv, dict_set d kv.1 kv.2) _ _
                 (λ key, (KStr key, VNone))).
    apply dict_update_distinct.
    unfold dict_keys. rewrite <-fmap_app.
    fold (reader_pairs fieldnames row). by rewrite reader_pairs_keys.
  - rewrite drop_ge by lia. by rewrite app_nil_r.
Qed.

(** ** Blank rows *)

Lemma all_space_lstrip s : all_space (lstrip s) = all_space s.
Proof.
  induction s as [|c s IH]; simpl; [done|].
  destruct (isspace c) eqn:Hc; simpl; [done|]. by rewrite Hc.
Qed.

Lemma lstrip_empty s : lstrip s = "" ↔ all_space s = true.
Proof.
  induction s as [|c s IH]; simpl; [done|].
  destruct (isspace c); simpl; [done|]. split; discriminate.
Qed.

Lemma all_space_rev_app s1 s2 :
  all_space (String.rev_app s1 s2) = all_space s1 && all_space s2.
Proof.
  revert s2. induction s1 as [|c s1 IH]; intros s2; simpl; [done|].
  rewrite IH. simpl. by destruct (isspace c), (all_space s1), (all_space s2).
Qed.

Lemma rev_app_empty s1 s2 : String.rev_app s1 s2 = "" ↔ s1 = "" ∧ s2 = "".
Proof.
  revert s2. induction s1 as [|c s1 IH]; intros s2; simpl.
  - by split; [|intros [_ ?]].
  - rewrite IH. split; [intros [_ [=]]|intros [[=] _]].
Qed.

(** [strip] leaves nothing exactly of the strings that are whitespace
    throughout. *)
Lemma strip_empty s : strip s = "" ↔ all_space s = true.
Proof.
  unfold strip, rstrip, String.rev.
  rewrite rev_app_empty, lstrip_empty, all_space_rev_app, all_space_lstrip.
  simpl. rewrite andb_true_r. tauto.
Qed.

Example strip_example :
  strip (String (Ascii.ascii_of_nat 9) "  Acme  Ltd ") = "Acme  Ltd" ∧
  strip (String (Ascii.ascii_of_nat 160) " ") = "".
Proof. split; reflexivity. Qed.

Lemma any_field_nonblank row : any_field row = bool_decide (nonblank_row row).
Proof.
  unfold any_field, nonblank_row. induction row as [|c row IH]; simpl.
  - done.
  - rewrite IH. unfold str_truthy, nonblank_cell.
    destruct (decide (strip c ≠ "")) as [Hc|Hc].
    + rewrite (bool_decide_eq_true_2 _ Hc). simpl. symmetry.
      apply bool_decide_eq_true. by left.
    + rewrite (bool_decide_eq_false_2 _ Hc). simpl.
      apply bool_decide_ext. rewrite Exists_cons. tauto.
Qed.

(** On cells followed by [None]s the check of [csv_to_json] raises nothing
    and is the check of [count_records] on the cells. *)
Lemma any_strip_cells row n :
  any_strip ((VStr <$> row) ++ replicate n VNone) = Ok (any_field row).
Proof.
  induction row as [|c row IH]; simpl.
  - induction n as [|n IH]; simpl; [done|apply IH].
  - destruct (str_truthy (strip c)); simpl; [done|apply IH].
Qed.

Lemma nonblank_row_nonempty row : nonblank_row row → row ≠ [].
Proof. intros Hrow ->. by apply Exists_nil in Hrow. Qed.

(** The loop over the dictionaries of some rows, when the check raises on
    none of them: it appends the records of the rows that pass, in order. *)
Lemma csv_to_json_loop_filter {A} (f : A → pydict pykey pyval) (pass : A → Prop)
    `{!∀ row, Decision (pass row)} (rows : list A) data :
  Forall (λ row, any_strip (dict_values (f row)) = Ok (bool_decide (pass row))) rows →
  csv_to_json_loop (f <$> rows) data =
    Ok (data ++ ((λ row, mapped_row (f row)) <$> filter pass rows)).
Proof.
  revert data. induction rows as [|row rest IH]; intros data Hall; simpl.
  - by rewrite app_nil_r.
  - apply Forall_cons in Hall as [-> Hall]. simpl.
    rewrite filter_cons. destruct (decide (pass row)) as [Hp|Hp].
    + rewrite (bool_decide_eq_true_2 _ Hp), IH by done.
      by rewrite fmap_cons, <-app_assoc.
    + rewrite (bool_decide_eq_false_2 _ Hp). by apply IH.
Qed.

(** What [csv_to_json] emits for a well-formed file: the records of the
    rows with a non-blank cell, in the order of the rows. *)
Lemma csv_to_json_well_formed fieldnames body :
  well_formed_csv (fieldnames :: body) →
  csv_to_json (fieldnames :: body) =
    Ok ((λ row, mapped_row (dictreader_row fieldnames row)) <$> filter nonblank_row body).
Proof.
  intros [Hnd Hlen]. unfold csv_to_json, DictReader.
  rewrite (csv_to_json_loop_filter _ nonblank_row).
  - simpl. do 2 f_equal. rewrite list_filter_filter. apply list_filter_iff.
    intros row. split; [tauto|].
    intros Hrow. split; [done|by apply nonblank_row_nonempty].
  - apply Forall_forall. intros row [_ Hin]%list_elem_of_filter.
    rewrite Forall_forall in Hlen.
    rewrite dictreader_row_well_formed by auto.
    unfold dict_values. rewrite reader_pairs_values, any_strip_cells by auto.
    by rewrite any_field_nonblank.
Qed.

(** C4, as the claim has it, fails on two kinds of input.  Under a header
    that repeats a name the check sees the dictionary, in which the later
    cell has replaced the earlier one, so a row with a non-blank cell is
    dropped; and on a fully blank row that is longer than the header the
    check meets the list of surplus cells and raises [AttributeError]. *)
Lemma blank_row_counterexample :
  (nonblank_row ["x"; ""] ∧ csv_to_json [["A"; "A"]; ["x"; ""]] = Ok []) ∧
  (¬ nonblank_row [""; ""] ∧ csv_to_json [["A"]; [""; ""]] = Raise AttributeError).
Proof. split; split; compute_done. Qed.

(** C4, amended.  For a file whose column names are pairwise distinct and
    whose data rows are no longer than the header, [csv_to_json] raises
    nothing and emits exactly one record per data row that has a cell
    which is not empty after trimming, in the order of the rows; the test
    is on the cells as read, before remapping and defaults.  A fully blank
    row yields no record. *)
Theorem blank_row_elimination (fieldnames : list string) (body : list (list string)) :
  well_formed_csv (fieldnames :: body) →
  csv_to_json (fieldnames :: body) =
    Ok ((λ row, mapped_row (dictreader_row fieldnames row)) <$> filter nonblank_row body).
Proof. apply csv_to_json_well_formed. Qed.

Lemma blank_row_elimination_witness :
  csv_to_json [["Supplier Company"; "Notes"]; ["Acme"; ""]; [" "; ""]; []; ["Bolt"]] =
    Ok [mapped_row (dictreader_row ["Supplier Company"; "Notes"] ["Acme"; ""]);
        mapped_row (dictreader_row ["Supplier Company"; "Notes"] ["Bolt"])].
Proof.
  apply (blank_row_elimination ["Supplier Company"; "Notes"]
           [["Acme"; ""]; [" "; ""]; []; ["Bolt"]]).
  compute_done.
Defined.

(** ** [count_records] against [csv_to_json] *)

Lemma count_records_nonblank rows :
  count_records rows = length (filter nonblank_row (tail rows)).
Proof.
  destruct rows as [|fieldnames reader]; simpl; [done|].
  assert (filter (λ row, any_field row) reader = filter nonblank_row reader) as ->.
  { apply list_filter_iff. intros row. rewrite any_field_nonblank.
    split; [apply bool_decide_unpack|apply bool_decide_pack]. }
  induction (filter nonblank_row reader) as [|row l IH]; [done|].
  rewrite fmap_cons. simpl. by f_equal.
Qed.

(** C7, as the claim has it, fails: under a header that repeats a name,
    [count_records] counts a row of which [csv_to_json] makes no record;
    and it counts a row whose only non-blank cell lies beyond the header,
    on which [csv_to_json] raises [AttributeError]. *)
Lemma count_mismatch_counterexample :
  (count_records [["A"; "A"]; ["x"; ""]] = 1 ∧
   csv_to_json [["A"; "A"]; ["x"; ""]] = Ok []) ∧
  (count_records [["A"]; [""; "y"]] = 1 ∧
   csv_to_json [["A"]; [""; "y"]] = Raise AttributeError).
Proof. split; split; compute_done. Qed.

(** C7, amended.  [count_records] passes over exactly one header row and
    counts the rows in which some cell, trimmed, is not empty; and for a
    file whose column names are pairwise distinct and whose data rows are
    no longer than the header, [csv_to_json] succeeds and the number of
    records it emits is the number [count_records] reports. *)
Theorem count_matches_conversion (rows : list (list string)) :
  count_records rows = length (filter nonblank_row (tail rows)) ∧
  (well_formed_csv rows →
   ∃ data, csv_to_json rows = Ok data ∧ length data = count_records rows).
Proof.
  split; [apply count_records_nonblank|].
  intros Hwf. destruct rows as [|fieldnames body].
  - by exists [].
  - eexists. split; [by apply csv_to_json_well_formed|].
    by rewrite length_fmap, count_records_nonblank.
Qed.

Lemma count_matches_conversion_witness :
  ∃ data,
    csv_to_json [["Supplier Company"; "Notes"]; ["Acme"; ""]; [" "; ""]; []; ["Bolt"]]
      = Ok data ∧
    length data =
      count_records [["Supplier Company"; "Notes"]; ["Acme"; ""]; [" "; ""]; []; ["Bolt"]].
Proof.
  apply (count_matches_conversion
           [["Supplier Company"; "Notes"]; ["Acme"; ""]; [" "; ""]; []; ["Bolt"]]).
  compute_done.
Defined.

(** ** The round trip *)

(** What the round trip needs of the three tables, checked entry by entry:
    the egress table sends the document name of an ingest column back to
    the column, and to that column sends nothing else; two ingest columns
    have different document names; and the document name of an ingest
    column is no default field, is not [null], and is no ingest column
    name, as no default field is. *)
Lemma tables_round_trip :
  Forall (λ kv,
    dict_get csv_mapping kv.2 = Some kv.1 ∧
    dict_get (reverse ((λ kv, (KStr kv.1, VStr kv.2)) <$> new_json_values))
      (KStr kv.2) = None ∧
    kv.2 ≠ "null" ∧
    (kv.2 ∉ dict_keys header_mapping) ∧
    (kv.1 ∉ dict_keys new_json_values) ∧
    Forall (λ kv', snd kv' = snd kv → fst kv' = fst kv) header_mapping ∧
    Forall (λ cv, snd cv = fst kv → fst cv = snd kv) csv_mapping) header_mapping.
Proof. compute_done. Qed.

Section round_trip.
Context (h dn : string) (Hh : dict_get header_mapping h = Some dn).

Local Lemma table_entry : (h, dn) ∈ header_mapping.
Proof. by apply dict_get_Some_elem. Qed.

Local Lemma table_facts :
  dict_get csv_mapping dn = Some h ∧
  dict_get (reverse ((λ kv, (KStr kv.1, VStr kv.2)) <$> new_json_values))
    (KStr dn) = None ∧
  dn ≠ "null" ∧ (dn ∉ dict_keys header_mapping) ∧
  (h ∉ dict_keys new_json_values) ∧
  Forall (λ kv', snd kv' = dn → fst kv' = h) header_mapping ∧
  Forall (λ cv, snd cv = h → fst cv = dn) csv_mapping.
Proof.
  pose proof tables_round_trip as Hall. rewrite Forall_forall in Hall.
  apply (Hall _ table_entry).
Qed.

(** On ingest only the column itself, or a column that bears the
    document name already, is given the document name. *)
Lemma ingest_preimage h' :
  translate header_mapping h' = dn → h' = h ∨ h' = dn.
Proof.
  destruct table_facts as (_ & _ & _ & _ & _ & Hinj & _).
  unfold translate, dict_get_default.
  destruct (dict_get header_mapping h') as [dn'|] eqn:Hget; simpl; [|by right].
  intros ->. left. apply dict_get_Some_elem in Hget.
  rewrite Forall_forall in Hinj. by apply (Hinj _ Hget).
Qed.

(** On egress only the document name, or a field that bears the column
    name already, is given the column name. *)
Lemma egress_preimage k : translate csv_mapping k = h → k = dn ∨ k = h.
Proof.
  destruct table_facts as (_ & _ & _ & _ & _ & _ & Hinj).
  unfold translate, dict_get_default.
  destruct (dict_get csv_mapping k) as [y|] eqn:Hget; simpl; [|by right].
  intros ->. left. apply dict_get_Some_elem in Hget.
  rewrite Forall_forall in Hinj. by apply (Hinj _ Hget).
Qed.

Context (fieldnames row : list string).
Context (Hnd : NoDup fieldnames) (Hlen : length row ≤ length fieldnames).

(** The keys of a record: translated column names and default fields. *)
Lemma record_keys key :
  key ∈ dict_keys (mapped_row (dictreader_row fieldnames row)) →
  (∃ h', h' ∈ fieldnames ∧ key = KStr (translate header_mapping h')) ∨
  (∃ k, k ∈ dict_keys new_json_values ∧ key = KStr k).
Proof.
  unfold mapped_row. rewrite dict_keys_update_elem.
  unfold dict_of_pairs at 1. rewrite dict_keys_update_elem.
  rewrite dictreader_row_well_formed by done.
  intros [[[]%elem_of_nil|Hk]|Hk].
  - left. rewrite <-list_fmap_compose in Hk.
    apply list_elem_of_fmap in Hk as ([key0 w] & Hkey & Hin). simpl in Hkey.
    apply (list_elem_of_fmap_2 fst) in Hin.
    rewrite reader_pairs_keys in Hin by done.
    apply list_elem_of_fmap in Hin as (h' & Hkey0 & Hin). simpl in Hkey0.
    subst. by exists h'.
  - right. rewrite <-list_fmap_compose in Hk.
    apply list_elem_of_fmap in Hk as ([k w] & Hkey & Hin). simpl in Hkey.
    subst. exists k.
    split; [|done]. by apply (list_elem_of_fmap_2 fst _ (k, w)).
Qed.

Context (j : nat) (v : string).
Context (Hj : fieldnames !! j = Some h) (Hv : row !! j = Some v).
Context (Hright : dn ∉ drop (S j) fieldnames).

Lemma reader_pairs_lookup :
  reader_pairs fieldnames row !! j = Some (KStr h, VStr v).
Proof.
  unfold reader_pairs. apply lookup_lt_Some in Hv as Hjlt.
  rewrite lookup_app_l by (rewrite length_zip, !length_fmap; lia).
  apply lookup_zip_with_Some. exists (KStr h), (VStr v).
  by rewrite !list_lookup_fmap, Hj, Hv.
Qed.

(** Ingest: the record holds the cell under the document name. *)
Lemma record_get_mapped :
  dict_get (mapped_row (dictreader_row fieldnames row)) (KStr dn) = Some (VStr v).
Proof.
  destruct table_facts as (_ & Hdef & _).
  unfold mapped_row. rewrite dict_get_update, Hdef, dict_get_of_pairs.
  rewrite dictreader_row_well_formed by done.
  apply (dict_get_reverse_lookup _ j).
  - rewrite list_lookup_fmap, reader_pairs_lookup. simpl.
    by rewrite (translate_mapped _ _ _ Hh).
  - rewrite <-fmap_drop, rekey_keys, fmap_drop, reader_pairs_keys by done.
    rewrite <-fmap_drop, <-list_fmap_compose.
    intros (h' & [= Hdn] & Hin)%list_elem_of_fmap.
    destruct (ingest_preimage h') as [->| ->]; [done| |done].
    rewrite <-(take_drop_middle _ _ _ Hj) in Hnd.
    apply NoDup_app in Hnd as (_ & _ & [? _]%NoDup_cons). done.
Qed.

(** The JSON file: the member of that name holds the cell. *)
Lemma json_record_get_mapped :
  dict_get (json_record (mapped_row (dictreader_row fieldnames row))) dn
    = Some (VStr v).
Proof.
  destruct table_facts as (_ & _ & Hnull & _).
  apply (json_record_get _ (KStr dn)).
  - apply mapped_row_NoDup.
  - apply record_get_mapped.
  - intros [s|] _ Hs; simpl in Hs; [by rewrite Hs|done].
Qed.

Lemma json_record_keys k :
  k ∈ dict_keys (json_record (mapped_row (dictreader_row fieldnames row))) →
  (∃ h', h' ∈ fieldnames ∧ k = translate header_mapping h') ∨
  k ∈ dict_keys new_json_values.
Proof.
  unfold json_record, dict_of_pairs. rewrite dict_keys_update_elem.
  intros [[]%elem_of_nil|Hk]. rewrite <-list_fmap_compose in Hk.
  apply list_elem_of_fmap in Hk as ([key w] & Hkey & Hin). simpl in Hkey.
  apply (list_elem_of_fmap_2 fst) in Hin.
  apply record_keys in Hin as [(h' & ? & Hkey')|(k' & ? & Hkey')];
    simpl in Hkey'; subst; simpl; [|by right].
  left. by exists h'.
Qed.

(** Egress: the row dictionary holds the cell under the column name. *)
Lemma egress_row_get_mapped :
  dict_get (egress_row (json_record (mapped_row (dictreader_row fieldnames row)))) h
    = Some (VStr v).
Proof.
  destruct table_facts as (Hback & _ & _ & Hval & Hdefault & _).
  rewrite <-(translate_mapped _ _ _ Hback). apply dict_rekey_get.
  - apply dict_of_pairs_NoDup.
  - apply json_record_get_mapped.
  - rewrite (translate_mapped _ _ _ Hback).
    intros k Hk [->| ->]%egress_preimage; [done|].
    apply json_record_keys in Hk as [(h' & Hin & Hk)|Hk]; [|done].
    symmetry in Hk.
    assert (h ∈ dict_keys header_mapping) as Hkey.
    { apply (list_elem_of_fmap_2 fst _ (h, dn)), table_entry. }
    unfold translate, dict_get_default in Hk.
    destruct (dict_get header_mapping h') as [y|] eqn:Hget; simpl in Hk; subst.
    + apply dict_get_Some_elem in Hget.
      pose proof tables_round_trip as Hall. rewrite Forall_forall in Hall.
      destruct (Hall _ Hget) as (_ & _ & _ & Hn & _). done.
    + rewrite Hh in Hget. done.
Qed.
End round_trip.

(** C1, as the claim has it, fails: with a column [Supplier Company]
    followed by a column that is literally named [companyName], both reach
    the record under the key [companyName], the later cell replaces the
    earlier, and the value supplied under [Supplier Company] is in no cell
    of the output row.  The file is well-formed and [companyName] is no
    key of [new_json_values]. *)
Lemma round_trip_counterexample :
  well_formed_csv [["Supplier Company"; "companyName"]; ["Acme"; "Other"]] ∧
  "Supplier Company" ∈ dict_keys header_mapping ∧
  (translate header_mapping "Supplier Company" ∉ dict_keys new_json_values) ∧
  ∃ data hs out_row,
    csv_to_json [["Supplier Company"; "companyName"]; ["Acme"; "Other"]] = Ok data ∧
    json_to_csv (VStr "") (json_dump_load data) = Ok (hs, [out_row]) ∧
    hs !! 0 = Some "Supplier Company" ∧
    out_row !! 0 = Some (VStr "Other") ∧
    VStr "Acme" ∉ out_row.
Proof.
  split_and!; [compute_done..|].
  do 3 eexists. split; [vm_compute; reflexivity|].
  split; [vm_compute; reflexivity|].
  split_and!; compute_done.
Qed.

(** C1, amended.  For a file whose column names are pairwise distinct and
    whose data rows are no longer than the header, [csv_to_json] followed
    by [json_to_csv] on the file it wrote succeeds and gives one output row
    per row with a non-blank cell, in order; and in the output row of such
    a row, every cell the row supplied under a column of [header_mapping]
    is the cell of every output column of that name, and there is such a
    column, provided no column to the right of it in the input is literally
    named by the document name the column maps to.  (No document name of
    [header_mapping] is a key of [new_json_values], so the defaults never
    stand in the way.) *)
Theorem round_trip_known_fields (fieldnames : list string) (body : list (list string)) :
  well_formed_csv (fieldnames :: body) →
  ∃ data hs out_rows,
    csv_to_json (fieldnames :: body) = Ok data ∧
    json_to_csv (VStr "") (json_dump_load data) = Ok (hs, out_rows) ∧
    length out_rows = length (filter nonblank_row body) ∧
    ∀ i row j h v,
      filter nonblank_row body !! i = Some row →
      fieldnames !! j = Some h → row !! j = Some v →
      h ∈ dict_keys header_mapping →
      translate header_mapping h ∉ drop (S j) fieldnames →
      h ∈ hs ∧
      ∃ out_row, out_rows !! i = Some out_row ∧
        ∀ p, hs !! p = Some h → out_row !! p = Some (VStr v).
Proof.
  intros Hwf.
  pose (data := (λ row, mapped_row (dictreader_row fieldnames row))
                  <$> filter nonblank_row body).
  exists data, (headers (json_dump_load data)),
    (written_rows (VStr "") (headers (json_dump_load data)) (json_dump_load data)).
  split_and!.
  - by apply csv_to_json_well_formed.
  - apply json_to_csv_total.
  - unfold written_rows, json_dump_load, data. by rewrite !length_fmap.
  - intros i row j h v Hi Hj Hv Hkey Hright. destruct Hwf as [Hnd Hlen].
    assert (length row ≤ length fieldnames) as Hrow.
    { rewrite Forall_forall in Hlen. apply Hlen.
      apply list_elem_of_lookup_2 in Hi. by apply list_elem_of_filter in Hi as [_ ?]. }
    destruct (dict_get header_mapping h) as [dn|] eqn:Hh;
      [|by apply dict_get_None in Hh].
    rewrite (translate_mapped _ _ _ Hh) in Hright.
    pose proof (egress_row_get_mapped h dn Hh fieldnames row Hnd Hrow j v Hj Hv Hright)
      as Hcell.
    pose proof (json_record_get_mapped h dn Hh fieldnames row Hnd Hrow j v Hj Hv Hright)
      as Hmember.
    set (entry := json_record (mapped_row (dictreader_row fieldnames row))) in *.
    assert (json_dump_load data !! i = Some entry) as Hentry.
    { unfold json_dump_load, data. by rewrite !list_lookup_fmap, Hi. }
    split.
    + destruct (table_facts h dn Hh) as (Hback & _).
      rewrite <-(translate_mapped _ _ _ Hback). apply translate_in_headers.
      unfold field_union. apply first_appearance_elem, elem_of_concat.
      exists (dict_keys entry). split.
      * apply list_elem_of_fmap_2. by apply list_elem_of_lookup_2 in Hentry.
      * apply dict_get_Some_elem in Hmember.
        by apply (list_elem_of_fmap_2 fst _ (dn, VStr v)).
    + eexists. split.
      * unfold written_rows. rewrite list_lookup_fmap, Hentry. done.
      * intros p Hp. rewrite list_lookup_fmap, Hp. simpl.
        unfold dict_get_default. by rewrite Hcell.
Qed.

Lemma round_trip_known_fields_witness :
  ∃ data hs out_rows,
    csv_to_json [["Supplier Company"; "Supplier Email"]; ["Acme"; "a@x.com"]] = Ok data ∧
    json_to_csv (VStr "") (json_dump_load data) = Ok (hs, out_rows) ∧
    "Supplier Email" ∈ hs ∧
    ∃ out_row, out_rows !! 0 = Some out_row ∧
      ∀ p, hs !! p = Some "Supplier Email" → out_row !! p = Some (VStr "a@x.com").
Proof.
  destruct (round_trip_known_fields ["Supplier Company"; "Supplier Email"]
              [["Acme"; "a@x.com"]]) as (data & hs & out_rows & Hin & Hout & _ & Hcells);
    [compute_done|].
  exists data, hs, out_rows. split; [done|]. split; [done|].
  apply (Hcells 0 ["Acme"; "a@x.com"] 1 "Supplier Email" "a@x.com"); compute_done.
Defined.

(** ** The example of the specification, end to end *)

Example end_to_end :
  ∃ data,
    csv_to_json [["Supplier Company"; "Supplier Email"]; ["Acme"; "a@x.com"]] = Ok data ∧
    json_to_csv (VStr "") (json_dump_load data) =
      Ok (["Supplier Company"; "Supplier Email"; "Zoominfo Company Name";
           "Zoominfo Company ID"; "Company HQ Name"; "Company Phone"; "Website";
           "Company LinkedIn URL"; "Contact Job Title"; "6-digit NAICS Code";
           "Sector Title"; "Primary Industry"; "Number of Employees";
           "Company Street"; "Company City"; "Company State"; "Company Zip Code";
           "Company Country"; "Company Location ID"; "Needs New Contact";
           "New Contact Found"; "Contact Person ID"; "Contact Match Criteria";
           "Enrichment Status"; "Error Message"],
          [VStr "Acme" :: VStr "a@x.com" :: replicate 21 (VStr "")
             ++ [VStr "Success"; VStr ""]]).
Proof.
  eexists. split; [vm_compute; reflexivity|].
  vm_compute. reflexivity.
Qed.

(** * Further properties of the three functions *)

(** ** What the reader's dictionaries hold *)

Lemma dict_values_set {K V : Type} `{EqDecision K} (d : pydict K V) k v v' :
  v' ∈ dict_values (dict_set d k v) → v' ∈ dict_values d ∨ v' = v.
Proof.
  unfold dict_values. induction d as [|[k0 v0] d IH]; simpl.
  - intros ->%list_elem_of_singleton. by right.
  - destruct (decide (k0 = k)) as [->|]; simpl; rewrite !elem_of_cons.
    + intros [->|?]; [by right|left; by right].
    + intros [->|Hin]; [left; by left|].
      destruct (IH Hin) as [?|?]; [left; by right|by right].
Qed.

Lemma dict_values_update {K V : Type} `{EqDecision K} (d : pydict K V) other v :
  v ∈ dict_values (dict_update d other) → v ∈ dict_values d ∨ v ∈ other.*2.
Proof.
  unfold dict_update. revert d.
  induction other as [|[k0 v0] other IH]; intros d; simpl; [by left|].
  intros [[?| ->]%dict_values_set|?]%IH; [by left|right; left|right; by right].
Qed.

(** A value of a reader dictionary is a cell of the row, or [None], or,
    for a row that is longer than the header, the list of its surplus
    cells. *)
Lemma dictreader_row_values fieldnames row v :
  v ∈ dict_values (dictreader_row fieldnames row) →
  (∃ cell, cell ∈ row ∧ v = VStr cell) ∨ v = VNone ∨
  (length fieldnames < length row ∧ v = VList (drop (length fieldnames) row)).
Proof.
  assert (∀ v, v ∈ dict_values
            (dict_of_pairs (zip (KStr <$> fieldnames) (VStr <$> row))) →
          ∃ cell, cell ∈ row ∧ v = VStr cell) as Hzip.
  { intros w [[]%elem_of_nil|Hw]%dict_values_update.
    apply list_elem_of_fmap in Hw as ([key w'] & -> & Hin).
    apply elem_of_zip_r, list_elem_of_fmap in Hin as (cell & -> & ?).
    by exists cell. }
  unfold dictreader_row. destruct (decide (length fieldnames < length row)).
  - intros [?| ->]%dict_values_set; [left; auto|right; by right].
  - destruct (decide (length row < length fieldnames)); [|left; auto].
    rewrite <-(foldl_fmap (λ d kv, dict_set d kv.1 kv.2) _ _
                 (λ key, (KStr key, VNone))).
    intros [?|Hv]%(dict_values_update (K:=pykey)); [left; auto|].
    rewrite <-list_fmap_compose in Hv.
    apply list_elem_of_fmap in Hv as (key & -> & _). right. by left.
Qed.

(** ** When [csv_to_json] raises *)

Lemma any_strip_raise values e :
  any_strip values = Raise e →
  e = AttributeError ∧ ∃ l, l ≠ [] ∧ VList l ∈ values.
Proof.
  induction values as [|v values IH]; simpl; [done|].
  destruct v as [s| |[|c l]]; simpl.
  - destruct (str_truthy (strip s)); [done|].
    intros (-> & l & ? & ?)%IH. split; [done|]. exists l. split; [done|by right].
  - intros (-> & l & ? & ?)%IH. split; [done|]. exists l. split; [done|by right].
  - intros (-> & l & ? & ?)%IH. split; [done|]. exists l. split; [done|by right].
  - intros [= <-]. split; [done|]. exists (c :: l). split; [done|left].
Qed.




Lemma zip_snd_take {A B} (l : list A) (k : list B) : (zip l k).*2 = take (length l) k.
Proof.
  revert k. induction l as [|x l IH]; intros [|y k]; simpl; [done..|].
  by rewrite IH.
Qed.

Lemma dict_set_fresh {K V : Type} `{EqDecision K} (d : pydict K V) k v :
  k ∉ dict_keys d → dict_set d k v = d ++ [(k, v)].
Proof.
  unfold dict_keys. induction d as [|[k0 v0] d IH]; simpl; [done|].
  intros [? ?]%not_elem_of_cons. rewrite decide_False by done. f_equal. auto.
Qed.

Lemma any_strip_skip values rest :
  Forall (λ v, strip_truthy v = Ok false) values →
  any_strip (values ++ rest) = any_strip rest.
Proof.
  induction values as [|v values IH]; simpl; [done|].
  intros [-> ?]%Forall_cons. simpl. auto.
Qed.

(** The check on a row that is longer than the header and blank under
    every column: it gets past the cells and meets the list. *)
Lemma any_strip_long_blank_row fieldnames row :
  length fieldnames < length row →
  Forall (λ cell, strip cell = "") (take (length fieldnames) row) →
  any_strip (dict_values (dictreader_row fieldnames row)) = Raise AttributeError.
Proof.
  intros Hlong Hblank. unfold dictreader_row. rewrite decide_True by done.
  set (d := dict_of_pairs (zip (KStr <$> fieldnames) (VStr <$> row))).
  assert (KNone ∉ dict_keys d) as Hfresh.
  { unfold d, dict_of_pairs. rewrite dict_keys_update_elem.
    intros [[]%elem_of_nil|Hin].
    apply list_elem_of_fmap in Hin as ([key w] & Hkey & Hin). simpl in Hkey. subst.
    by apply elem_of_zip_l, list_elem_of_fmap in Hin as (? & [=] & _). }
  rewrite (dict_set_fresh _ _ _ Hfresh). unfold dict_values. rewrite fmap_app.
  rewrite any_strip_skip.
  - simpl. destruct (drop (length fieldnames) row) as [|c l] eqn:Hdrop; [|done].
    apply (f_equal length) in Hdrop. rewrite length_drop in Hdrop. simpl in Hdrop. lia.
  - apply Forall_forall. intros v [[]%elem_of_nil|Hv]%dict_values_update.
    rewrite zip_snd_take, length_fmap, <-fmap_take in Hv.
    apply list_elem_of_fmap in Hv as (cell & -> & Hcell).
    rewrite Forall_forall in Hblank. simpl. unfold str_truthy.
    by rewrite (Hblank _ Hcell).
Qed.

Lemma csv_to_json_loop_raises csv_reader data row :
  row ∈ csv_reader → any_strip (dict_values row) = Raise AttributeError →
  csv_to_json_loop csv_reader data = Raise AttributeError.
Proof.
  intros Hin Hrow. revert data.
  induction csv_reader as [|row0 rest IH]; intros data; [by apply elem_of_nil in Hin|].
  simpl. apply elem_of_cons in Hin as [<-|Hin]; [by rewrite Hrow|].
  destruct (any_strip (dict_values row0)) as [[|]|e] eqn:Hrow0; simpl; [by auto..|].
  by destruct (any_strip_raise _ _ Hrow0) as [-> _].
Qed.

(** X2.  A data row that is longer than the header and blank under every
    column of the header makes [csv_to_json] raise [AttributeError],
    wherever it stands in the file and whatever its surplus cells hold; no
    JSON file is written. *)
Theorem csv_to_json_raises_on_long_blank_row (fieldnames : list string)
    (body : list (list string)) :
  Exists (λ row, length fieldnames < length row ∧
                 Forall (λ cell, strip cell = "") (take (length fieldnames) row)) body →
  csv_to_json (fieldnames :: body) = Raise AttributeError.
Proof.
  intros (row & Hin & Hlong & Hblank)%Exists_exists.
  apply (csv_to_json_loop_raises _ _ (dictreader_row fieldnames row)).
  - apply list_elem_of_fmap_2, list_elem_of_filter. split; [|done].
    intros ->. simpl in Hlong. lia.
  - by apply any_strip_long_blank_row.
Qed.

Lemma csv_to_json_raises_on_long_blank_row_witness :
  csv_to_json [["Supplier Company"; "Notes"]; ["Acme"; "ok"]; [" "; ""; "late"]]
    = Raise AttributeError.
Proof.
  apply (csv_to_json_raises_on_long_blank_row ["Supplier Company"; "Notes"]
           [["Acme"; "ok"]; [" "; ""; "late"]]).
  compute_done.
Defined.

(** ** The count against the conversion, on any file *)

Lemma any_strip_true values :
  any_strip values = Ok true → ∃ s, VStr s ∈ values ∧ strip s ≠ "".
Proof.
  induction values as [|v values IH]; simpl; [done|].
  destruct v as [s| |[|c l]]; simpl; [| | |done].
  - unfold str_truthy. destruct (decide (strip s ≠ "")) as [Hs|Hs].
    + intros _. exists s. split; [left|done].
    + rewrite (bool_decide_eq_false_2 _ Hs).
      intros (s' & ? & ?)%IH. exists s'. split; [by right|done].
  - intros (s' & ? & ?)%IH. exists s'. split; [by right|done].
  - intros (s' & ? & ?)%IH. exists s'. split; [by right|done].
Qed.

(** A row whose dictionary passes the check has a non-blank cell. *)
Lemma any_strip_row_nonblank fieldnames row :
  any_strip (dict_values (dictreader_row fieldnames row)) = Ok true → nonblank_row row.
Proof.
  intros (s & Hin & Hs)%any_strip_true.
  apply dictreader_row_values in Hin as [(cell & Hcell & [= <-])|[[=]|[_ [=]]]].
  apply Exists_exists. by exists s.
Qed.

Lemma csv_to_json_loop_length fieldnames (rows : list (list string)) data0 data :
  csv_to_json_loop (dictreader_row fieldnames <$> rows) data0 = Ok data →
  length data ≤ length data0 + length (filter nonblank_row rows).
Proof.
  revert data0. induction rows as [|row rows IH]; intros data0; simpl.
  - intros [= <-]. lia.
  - destruct (any_strip (dict_values (dictreader_row fieldnames row)))
      as [[|]|e] eqn:Hrow; simpl; [| |done].
    + intros Hloop%IH. rewrite length_app in Hloop. simpl in Hloop.
      rewrite filter_cons_True by by eapply any_strip_row_nonblank. simpl. lia.
    + intros Hloop%IH. rewrite filter_cons. case_decide; simpl; lia.
Qed.

(** X3.  On every file that [csv_to_json] converts, whatever its shape,
    the number of records it emits is at most the number [count_records]
    reports: the converter drops every row the counter passes over. *)
Theorem records_at_most_count (rows : list (list string))
    (data : list (pydict pykey pyval)) :
  csv_to_json rows = Ok data → length data ≤ count_records rows.
Proof.
  rewrite count_records_nonblank. destruct rows as [|fieldnames body]; simpl.
  - by intros [= <-].
  - intros Hloop%csv_to_json_loop_length. simpl in Hloop.
    etrans; [done|]. rewrite list_filter_filter.
    clear. induction body as [|row body IH]; [done|].
    rewrite !filter_cons. repeat case_decide; simpl; try lia; tauto.
Qed.

Lemma records_at_most_count_witness :
  length (@nil (pydict pykey pyval)) ≤ count_records [["A"; "A"]; ["x"; ""]; [" "; " "]].
Proof.
  apply (records_at_most_count [["A"; "A"]; ["x"; ""]; [" "; " "]] []).
  compute_done.
Defined.

(** ** The keys of the records *)

Lemma dict_keys_update_ext {K V W : Type} `{EqDecision K}
    (d1 : pydict K V) (d2 : pydict K W) (o1 : list (K * V)) (o2 : list (K * W)) :
  dict_keys d1 = dict_keys d2 → o1.*1 = o2.*1 →
  dict_keys (dict_update d1 o1) = dict_keys (dict_update d2 o2).
Proof.
  unfold dict_update. revert d1 d2 o2.
  induction o1 as [|[k v] o1 IH]; intros d1 d2 [|[k' w] o2] Hd Ho; simplify_eq/=;
    [done|].
  apply IH; [|done]. rewrite !dict_keys_set, Hd. by case_decide.
Qed.

Lemma dictreader_row_keys fieldnames row key :
  key ∈ dict_keys (dictreader_row fieldnames row) →
  (∃ h, h ∈ fieldnames ∧ key = KStr h) ∨
  (key = KNone ∧ length fieldnames < length row).
Proof.
  assert (∀ key, key ∈ dict_keys
            (dict_of_pairs (zip (KStr <$> fieldnames) (VStr <$> row))) →
          ∃ h, h ∈ fieldnames ∧ key = KStr h) as Hzip.
  { intros key'. unfold dict_of_pairs. rewrite dict_keys_update_elem.
    intros [[]%elem_of_nil|Hin].
    apply list_elem_of_fmap in Hin as ([key0 w] & Hkey & Hin). simpl in Hkey. subst.
    apply elem_of_zip_l, list_elem_of_fmap in Hin as (h & -> & ?). by exists h. }
  unfold dictreader_row. destruct (decide (length fieldnames < length row)).
  - rewrite dict_keys_set. case_decide; [left; auto|].
    intros [?| ->%list_elem_of_singleton]%elem_of_app; [left; auto|by right].
  - destruct (decide (length row < length fieldnames)); [|left; auto].
    rewrite <-(foldl_fmap (λ d kv, dict_set d kv.1 kv.2) _ _
                 (λ key, (KStr key, VNone))).
    fold (dict_update (dict_of_pairs (zip (KStr <$> fieldnames) (VStr <$> row)))
            ((λ key, (KStr key, VNone)) <$> drop (length row) fieldnames)).
    rewrite dict_keys_update_elem. intros [?|Hin]; [left; auto|]. left.
    rewrite <-list_fmap_compose in Hin.
    apply list_elem_of_fmap in Hin as (h & -> & Hin). exists h. split; [|done].
    by eapply subseteq_drop.
Qed.

Lemma mapped_row_keys (row : pydict pykey pyval) key :
  key ∈ dict_keys (mapped_row row) →
  (∃ key0, key0 ∈ dict_keys row ∧ key = ingest_key key0) ∨
  (∃ k, k ∈ dict_keys new_json_values ∧ key = KStr k).
Proof.
  unfold mapped_row. rewrite dict_keys_update_elem.
  unfold dict_of_pairs at 1. rewrite dict_keys_update_elem, rekey_keys.
  intros [[[]%elem_of_nil|Hk]|Hk].
  - left. apply list_elem_of_fmap in Hk as (key0 & -> & ?). by exists key0.
  - right. rewrite <-list_fmap_compose in Hk.
    apply list_elem_of_fmap in Hk as ([k w] & Hkey & Hin). simpl in Hkey. subst.
    exists k. split; [|done]. by apply (list_elem_of_fmap_2 fst _ (k, w)).
Qed.

(** For a row that is no longer than the header the keys of the reader's
    dictionary are those of the header, whatever the cells are. *)
Lemma dictreader_row_keys_short fieldnames row :
  length row ≤ length fieldnames →
  dict_keys (dictreader_row fieldnames row) =
    dict_keys (dict_of_pairs ((λ h, (KStr h, VNone)) <$> fieldnames)).
Proof.
  intros Hlen.
  assert (dictreader_row fieldnames row =
          dict_of_pairs (reader_pairs fieldnames row)) as ->.
  { unfold dictreader_row, reader_pairs, dict_of_pairs, dict_update.
    rewrite decide_False by lia. rewrite foldl_app.
    destruct (decide (length row < length fieldnames)).
    - by rewrite foldl_fmap.
    - by rewrite drop_ge by lia. }
  apply dict_keys_update_ext; [done|].
  rewrite reader_pairs_keys by done. by rewrite <-list_fmap_compose.
Qed.

Lemma mapped_row_keys_ext (row1 row2 : pydict pykey pyval) :
  dict_keys row1 = dict_keys row2 →
  dict_keys (mapped_row row1) = dict_keys (mapped_row row2).
Proof.
  intros Hkeys. unfold mapped_row.
  apply dict_keys_update_ext; [|done].
  apply dict_keys_update_ext; [done|]. rewrite !rekey_keys.
  unfold dict_keys in Hkeys. by rewrite Hkeys.
Qed.

(** The records of a file without over-long rows come from rows of the
    body that are no longer than the header. *)
Lemma csv_to_json_records fieldnames body data record :
  csv_to_json (fieldnames :: body) = Ok data → record ∈ data →
  ∃ row, row ∈ body ∧ record = mapped_row (dictreader_row fieldnames row).
Proof.
  intros Hrun Hin.
  destruct (csv_to_json_loop_elem _ _ _ _ Hrun Hin) as [[]%elem_of_nil|(d & Hd & ->)].
  simpl in Hd.
  apply list_elem_of_fmap in Hd as (row & -> & [_ ?]%list_elem_of_filter).
  by exists row.
Qed.

(** X4.  In a file none of whose data rows is longer than the header,
    every record [csv_to_json] emits has the same keys in the same order,
    in the list it builds and in the JSON file: a short row is filled up
    with [None], so the fields of a record depend on the header alone. *)
Theorem records_uniform (fieldnames : list string) (body : list (list string))
    (data : list (pydict pykey pyval)) :
  Forall (λ row, length row ≤ length fieldnames) body →
  csv_to_json (fieldnames :: body) = Ok data →
  (∀ r1 r2, r1 ∈ data → r2 ∈ data → dict_keys r1 = dict_keys r2) ∧
  (∀ r1 r2, r1 ∈ json_dump_load data → r2 ∈ json_dump_load data →
     dict_keys r1 = dict_keys r2).
Proof.
  intros Hlen Hrun. rewrite Forall_forall in Hlen.
  assert (∀ r1 r2, r1 ∈ data → r2 ∈ data → dict_keys r1 = dict_keys r2) as Hdata.
  { intros r1 r2 (row1 & ? & ->)%(csv_to_json_records _ _ _ _ Hrun)
      (row2 & ? & ->)%(csv_to_json_records _ _ _ _ Hrun).
    apply mapped_row_keys_ext. rewrite !dictreader_row_keys_short; auto. }
  split; [done|].
  intros r1' r2' (r1 & -> & ?)%list_elem_of_fmap (r2 & -> & ?)%list_elem_of_fmap.
  unfold json_record. apply dict_keys_update_ext; [done|].
  rewrite !rekey_keys. specialize (Hdata r1 r2). unfold dict_keys in Hdata.
  by rewrite Hdata.
Qed.

Lemma records_uniform_witness :
  dict_keys (mapped_row (dictreader_row ["Supplier Company"; "Notes"] ["Acme"; "x"])) =
  dict_keys (mapped_row (dictreader_row ["Supplier Company"; "Notes"] ["Bolt"])).
Proof.
  destruct (records_uniform ["Supplier Company"; "Notes"] [["Acme"; "x"]; ["Bolt"]]
              [mapped_row (dictreader_row ["Supplier Company"; "Notes"] ["Acme"; "x"]);
               mapped_row (dictreader_row ["Supplier Company"; "Notes"] ["Bolt"])])
    as [Hsame _]; [compute_done..|].
  apply Hsame; [left|right; left].
Defined.

(** X5.  For a file none of whose data rows is longer than the header, no
    record has the key [None], and the JSON file holds every record member
    for member: each key under its own name, in the record's order, with
    its value, nothing merged. *)
Theorem json_file_faithful (fieldnames : list string) (body : list (list string))
    (data : list (pydict pykey pyval)) :
  Forall (λ row, length row ≤ length fieldnames) body →
  csv_to_json (fieldnames :: body) = Ok data →
  Forall (λ record, KNone ∉ dict_keys record) data ∧
  json_dump_load data =
    (λ record : list (pykey * pyval), (λ kv, (json_key kv.1, kv.2)) <$> record) <$> data.
Proof.
  intros Hlen Hrun. rewrite Forall_forall in Hlen.
  assert (∀ record, record ∈ data → KNone ∉ dict_keys record) as Hnone.
  { intros record (row & Hrow & ->)%(csv_to_json_records _ _ _ _ Hrun).
    intros [(key0 & Hkey0 & Hkey)|(k & _ & [=])]%mapped_row_keys.
    apply dictreader_row_keys in Hkey0 as [(h & _ & ->)|[_ Hlong]]; [done|].
    specialize (Hlen _ Hrow). lia. }
  split; [by apply Forall_forall|].
  unfold json_dump_load. apply list_fmap_ext. intros i record Hi.
  apply list_elem_of_lookup_2 in Hi.
  unfold json_record. apply dict_of_pairs_distinct.
  rewrite rekey_keys. apply NoDup_fmap_2_strong.
  - intros [s1|] [s2|] H1 H2 Hs; simpl in Hs; subst; try done.
    + by destruct (Hnone _ Hi).
    + by destruct (Hnone _ Hi).
  - pose proof (csv_to_json_records _ _ _ _ Hrun Hi) as (row & _ & ->).
    apply mapped_row_NoDup.
Qed.

Lemma json_file_faithful_witness :
  json_dump_load [mapped_row (dictreader_row ["Supplier Company"; "null"] ["Acme"])] =
  (λ record : list (pykey * pyval), (λ kv, (json_key kv.1, kv.2)) <$> record) <$>
    [mapped_row (dictreader_row ["Supplier Company"; "null"] ["Acme"])].
Proof.
  apply (json_file_faithful ["Supplier Company"; "null"] [["Acme"]]); compute_done.
Defined.

(** ** [json_to_csv]: the columns and the cells *)

Lemma NoDup_fmap_inj_on {A B} (f : A → B) (l : list A) x y :
  NoDup (f <$> l) → x ∈ l → y ∈ l → f x = f y → x = y.
Proof.
  induction l as [|a l IH]; [by intros _ ?%elem_of_nil|].
  rewrite fmap_cons, NoDup_cons, !elem_of_cons.
  intros [Ha Hl] [->|Hx] [->|Hy] Hf; [done| | |by apply IH].
  - destruct Ha. rewrite Hf. by apply list_elem_of_fmap_2.
  - destruct Ha. rewrite <-Hf. by apply list_elem_of_fmap_2.
Qed.

Section json_to_csv_columns.
Context {V : Type} (restval : V).
Implicit Types (data : list (pydict string V)) (entry : pydict string V).

Lemma field_union_NoDup data : NoDup (field_union data).
Proof. apply first_appearance_NoDup. Qed.

Lemma field_union_elem data entry k :
  entry ∈ data → k ∈ dict_keys entry → k ∈ field_union data.
Proof.
  intros Hentry Hk. unfold field_union.
  apply first_appearance_elem, elem_of_concat.
  exists (dict_keys entry). split; [by apply list_elem_of_fmap_2|done].
Qed.

(** [combined_keys] lists every field name of the document once. *)
Lemma combined_keys_field_union data : combined_keys data ≡ₚ field_union data.
Proof.
  unfold combined_keys. rewrite mapped_keys_group_a, unmapped_keys_group_b.
  rewrite <-(filter_app_complement (λ k, k ∈ dict_keys csv_mapping) (field_union data)).
  apply Permutation_app; [|done].
  apply NoDup_Permutation.
  - apply NoDup_filter. compute_done.
  - apply NoDup_filter, field_union_NoDup.
  - intros k. unfold group_a. rewrite !list_elem_of_filter. tauto.
Qed.

Lemma combined_keys_NoDup data : NoDup (combined_keys data).
Proof. rewrite combined_keys_field_union. apply field_union_NoDup. Qed.

Lemma combined_keys_elem data entry k :
  entry ∈ data → k ∈ dict_keys entry → k ∈ combined_keys data.
Proof. rewrite combined_keys_field_union. apply field_union_elem. Qed.
End json_to_csv_columns.

(** X6.  The header row of [json_to_csv] has one column for each distinct
    field name of the document and no other: up to order it is the list
    of the translated field names, and its length is the size of
    [all_keys]. *)
Theorem header_one_column_per_field {V : Type} (data : list (pydict string V)) :
  NoDup (combined_keys data) ∧
  headers data ≡ₚ translate csv_mapping <$> field_union data ∧
  length (headers data) = size (all_keys data).
Proof.
  split_and!.
  - apply combined_keys_NoDup.
  - unfold headers. by rewrite combined_keys_field_union.
  - unfold headers. rewrite length_fmap, combined_keys_field_union.
    assert (all_keys data = list_to_set (field_union data)) as ->.
    { apply set_eq. intros k. by rewrite all_keys_elem, elem_of_list_to_set. }
    symmetry. apply size_list_to_set, field_union_NoDup.
Qed.

(** Two keys of the egress table have different column names, and no
    column name of the table is a key of it. *)
Lemma csv_mapping_columns :
  Forall (λ a, Forall (λ b, snd a = snd b → fst a = fst b) csv_mapping) csv_mapping ∧
  Forall (λ a, snd a ∉ dict_keys csv_mapping) csv_mapping.
Proof. split; compute_done. Qed.

Lemma translate_csv_mapping_eq k1 k2 :
  translate csv_mapping k1 = translate csv_mapping k2 →
  k1 = k2 ∨ dict_get csv_mapping k1 = Some k2 ∨ dict_get csv_mapping k2 = Some k1.
Proof.
  destruct csv_mapping_columns as [Hinj _]. rewrite Forall_forall in Hinj.
  unfold translate, dict_get_default.
  destruct (dict_get csv_mapping k1) as [y1|] eqn:H1,
    (dict_get csv_mapping k2) as [y2|] eqn:H2; simpl; intros <-; auto.
  left. apply dict_get_Some_elem in H1, H2.
  specialize (Hinj _ H1). rewrite Forall_forall in Hinj. by apply (Hinj _ H2).
Qed.

(** X7.  The header row of [json_to_csv] names a column twice exactly when
    the document holds, in any of its records, both a key of [csv_mapping]
    and a field that bears the column name the key translates to. *)
Theorem header_duplicate_free_iff {V : Type} (data : list (pydict string V)) :
  NoDup (headers data) ↔
  ∀ k y, k ∈ field_union data → dict_get csv_mapping k = Some y →
         y ∉ field_union data.
Proof.
  unfold headers. split.
  - intros Hnd k y Hk Hy Hin.
    destruct csv_mapping_columns as [_ Hval]. rewrite Forall_forall in Hval.
    pose proof (Hval _ (dict_get_Some_elem _ _ _ Hy)) as Hnokey.
    change (y ∉ dict_keys csv_mapping) in Hnokey.
    assert (k = y) as ->.
    { apply (NoDup_fmap_inj_on (translate csv_mapping) (combined_keys data));
        [done|by rewrite combined_keys_field_union..|].
      by rewrite (translate_mapped _ _ _ Hy), (translate_absent _ _ Hnokey). }
    apply Hnokey, (list_elem_of_fmap_2 fst _ (y, y)).
    by apply dict_get_Some_elem.
  - intros Hfree. apply NoDup_fmap_2_strong; [|apply combined_keys_NoDup].
    intros k1 k2. rewrite !combined_keys_field_union.
    intros H1 H2 [?|[Hk|Hk]]%translate_csv_mapping_eq; [done|..].
    + by destruct (Hfree _ _ H1 Hk).
    + by destruct (Hfree _ _ H2 Hk).
Qed.

(** X8.  [json_to_csv] writes one row per record, each as long as the
    header row, and where no key of a record translates to the name of a
    column the row has the writer's [restval] in that column: a missing
    field is an empty cell, not an error. *)
Theorem rows_rectangular {V : Type} (restval : V) (data : list (pydict string V))
    (hs : list string) (rows : list (list V)) :
  json_to_csv restval data = Ok (hs, rows) →
  length rows = length data ∧
  Forall (λ row, length row = length hs) rows ∧
  ∀ i entry p h,
    data !! i = Some entry → hs !! p = Some h →
    (∀ k, k ∈ dict_keys entry → translate csv_mapping k ≠ h) →
    ∃ row, rows !! i = Some row ∧ row !! p = Some restval.
Proof.
  rewrite json_to_csv_total. intros [= <- <-]. unfold written_rows. split_and!.
  - by rewrite length_fmap.
  - apply Forall_forall. intros row (entry & -> & _)%list_elem_of_fmap.
    by rewrite length_fmap.
  - intros i entry p h Hi Hp Hmiss. eexists.
    rewrite list_lookup_fmap, Hi. split; [done|].
    rewrite list_lookup_fmap, Hp. simpl. f_equal.
    unfold dict_get_default.
    assert (dict_get (egress_row entry) h = None) as ->; [|done].
    apply dict_get_None. intros (k & Hk & ->)%egress_row_keys. by apply (Hmiss k).
Qed.

Lemma rows_rectangular_witness :
  length [[0; 1]; [2; 0]] = length [[("siteID", 1)]; [("phone", 2)]] ∧
  Forall (λ row, length row = length ["Supplier Phone"; "Site ID"]) [[0; 1]; [2; 0]].
Proof.
  destruct (rows_rectangular 0 [[("siteID", 1)]; [("phone", 2)]]
              ["Supplier Phone"; "Site ID"] [[0; 1]; [2; 0]]) as (? & ? & _).
  - compute_done.
  - done.
Defined.

(** X9.  When the header row of [json_to_csv] names no column twice, no
    value of a record is lost: each field of a record (read from JSON, so
    under distinct keys) has exactly one column, that of its translated
    name, and the row written for the record holds the field's value
    there. *)
Theorem egress_lossless {V : Type} (restval : V) (data : list (pydict string V))
    (hs : list string) (rows : list (list V)) i entry k v :
  json_to_csv restval data = Ok (hs, rows) →
  NoDup hs →
  data !! i = Some entry → NoDup (dict_keys entry) → dict_get entry k = Some v →
  ∃ p row,
    hs !! p = Some (translate csv_mapping k) ∧
    (∀ p', hs !! p' = Some (translate csv_mapping k) → p' = p) ∧
    rows !! i = Some row ∧ row !! p = Some v.
Proof.
  rewrite json_to_csv_total. intros [= <- <-] Hnd Hi Hentry Hk.
  assert (entry ∈ data) as Hin by by eapply list_elem_of_lookup_2.
  assert (k ∈ dict_keys entry) as Hkey.
  { apply dict_get_Some_elem in Hk. by apply (list_elem_of_fmap_2 fst _ (k, v)). }
  assert (translate csv_mapping k ∈ headers data) as [p Hp]%list_elem_of_lookup_1.
  { by apply translate_in_headers, (field_union_elem _ entry). }
  exists p. eexists. split_and!; [done| | |].
  - intros p' Hp'. by apply (NoDup_lookup _ _ _ _ Hnd Hp' Hp).
  - unfold written_rows. by rewrite list_lookup_fmap, Hi.
  - rewrite list_lookup_fmap, Hp. simpl. f_equal.
    unfold dict_get_default, egress_row.
    rewrite (dict_rekey_get (translate csv_mapping) entry k v); [done..|].
    intros k' Hk' Heq.
    apply (NoDup_fmap_inj_on (translate csv_mapping) (combined_keys data));
      [done|by eapply combined_keys_elem..|done].
Qed.

Lemma egress_lossless_witness :
  ∃ p row,
    ["Supplier Phone"; "Site ID"; "Notes"] !! p = Some (translate csv_mapping "siteID") ∧
    (∀ p', ["Supplier Phone"; "Site ID"; "Notes"] !! p'
             = Some (translate csv_mapping "siteID") → p' = p) ∧
    [[0; 1; 5]; [9; 0; 0]] !! 0 = Some row ∧ row !! p = Some 1.
Proof.
  apply (egress_lossless 0 [[("Notes", 5); ("siteID", 1)]; [("phone", 9)]]
           ["Supplier Phone"; "Site ID"; "Notes"] [[0; 1; 5]; [9; 0; 0]]
           0 [("Notes", 5); ("siteID", 1)] "siteID" 1); compute_done.
Defined.

(** ** From the CSV file to the CSV file *)

(** More of the tables, checked entry by entry: the ingest column names
    are column names of the egress table, the document names of the ingest
    table and the default fields are keys of it, and [null] is no column
    name of it. *)
Lemma tables_vocabulary :
  dict_keys header_mapping ⊆ dict_values csv_mapping ∧
  dict_values header_mapping ⊆ dict_keys csv_mapping ∧
  dict_keys new_json_values ⊆ dict_keys csv_mapping ∧
  "null" ∉ dict_values csv_mapping.
Proof. split_and!; compute_done. Qed.

Lemma translate_header_mapping_cases h :
  ((h ∉ dict_keys header_mapping) ∧ translate header_mapping h = h) ∨
  (h ∈ dict_keys header_mapping ∧
   translate header_mapping h ∈ dict_values header_mapping).
Proof.
  destruct (dict_get header_mapping h) as [y|] eqn:Hget.
  - right. rewrite (translate_mapped _ _ _ Hget).
    apply dict_get_Some_elem in Hget. split.
    + by apply (list_elem_of_fmap_2 fst _ (h, y)).
    + by apply (list_elem_of_fmap_2 snd _ (h, y)).
  - left. apply dict_get_None in Hget. split; [done|by apply translate_absent].
Qed.

Lemma csv_mapping_value_no_key k y :
  dict_get csv_mapping k = Some y → y ∉ dict_keys csv_mapping.
Proof.
  intros Hget%dict_get_Some_elem.
  destruct csv_mapping_columns as [_ Hval]. rewrite Forall_forall in Hval.
  apply (Hval _ Hget).
Qed.

Lemma default_lookup_absent k :
  k ∉ dict_keys new_json_values →
  dict_get (reverse ((λ kv, (KStr kv.1, VStr kv.2)) <$> new_json_values)) (KStr k)
    = None.
Proof.
  intros Hk. apply dict_get_None. unfold dict_keys.
  rewrite fmap_reverse, elem_of_reverse, <-list_fmap_compose.
  intros ([k' w] & [= ->] & Hin)%list_elem_of_fmap.
  by apply Hk, (list_elem_of_fmap_2 fst _ (k', w)).
Qed.

Lemma json_record_keys_general (record : pydict pykey pyval) k :
  k ∈ dict_keys (json_record record) →
  ∃ key, key ∈ dict_keys record ∧ k = json_key key.
Proof.
  unfold json_record, dict_of_pairs. rewrite dict_keys_update_elem, rekey_keys.
  intros [[]%elem_of_nil|(key & -> & ?)%list_elem_of_fmap]. by exists key.
Qed.

(** The names of the members of a record in the JSON file: translated
    column names, default fields, and [null] for a row that was longer
    than the header. *)
Lemma json_member_names fieldnames row k :
  k ∈ dict_keys (json_record (mapped_row (dictreader_row fieldnames row))) →
  (∃ h, h ∈ fieldnames ∧ k = translate header_mapping h) ∨
  k = "null" ∨ k ∈ dict_keys new_json_values.
Proof.
  intros (key & Hkey & ->)%json_record_keys_general.
  apply mapped_row_keys in Hkey as [(key0 & Hkey0 & ->)|(k & ? & ->)];
    [|right; by right].
  apply dictreader_row_keys in Hkey0 as [(h & ? & ->)|[-> _]];
    [left; by exists h|right; by left].
Qed.

(** X10.  The default fields reach the output CSV: for every file that
    [csv_to_json] converts and every default field whose column name is
    not itself a column of the input, every row [json_to_csv] writes from
    the JSON file has the default value in every column of that name
    (for [enrichmentStatus], [Success] under [Enrichment Status]), and
    there is such a column as soon as there is a record. *)
Theorem defaults_reach_output (fieldnames : list string) (body : list (list string))
    (data : list (pydict pykey pyval)) (hs : list string)
    (out_rows : list (list pyval)) (k v : string) :
  csv_to_json (fieldnames :: body) = Ok data →
  json_to_csv (VStr "") (json_dump_load data) = Ok (hs, out_rows) →
  (k, v) ∈ new_json_values →
  translate csv_mapping k ∉ fieldnames →
  (data ≠ [] → translate csv_mapping k ∈ hs) ∧
  Forall (λ out_row, ∀ p, hs !! p = Some (translate csv_mapping k) →
                          out_row !! p = Some (VStr v)) out_rows.
Proof.
  intros Hrun. rewrite json_to_csv_total. intros [= <- <-] Hkv Hfresh.
  destruct tables_vocabulary as (_ & Hvalues & Hdefaults & Hnull).
  assert (k ∈ dict_keys csv_mapping) as Hk.
  { by apply Hdefaults, (list_elem_of_fmap_2 fst _ (k, v)). }
  assert (∀ entry, entry ∈ json_dump_load data →
            k ∈ dict_keys entry ∧
            dict_get (egress_row entry) (translate csv_mapping k) = Some (VStr v))
    as Hentry.
  { intros entry (record & -> & Hrecord)%list_elem_of_fmap.
    destruct (csv_to_json_records _ _ _ _ Hrun Hrecord) as (row & _ & ->).
    assert (dict_get (json_record (mapped_row (dictreader_row fieldnames row))) k
            = Some (VStr v)) as Hmember.
    { apply (json_record_get _ (KStr k)).
      - apply mapped_row_NoDup.
      - by apply mapped_row_default.
      - intros [s|] _ Hs; simpl in Hs; [by rewrite Hs|].
        assert (Forall (λ kv, kv.1 ≠ "null") new_json_values) as Hall by compute_done.
        rewrite Forall_forall in Hall. by destruct (Hall _ Hkv). }
    split.
    { apply dict_get_Some_elem in Hmember.
      by apply (list_elem_of_fmap_2 fst _ (k, VStr v)). }
    apply dict_rekey_get; [apply dict_of_pairs_NoDup|done|].
    intros k' Hk' [?|[Hback|Hforth]]%translate_csv_mapping_eq; [done|..].
    - by apply csv_mapping_value_no_key in Hback.
    - pose proof (csv_mapping_value_no_key _ _ Hforth) as Hnokey.
      rewrite (translate_mapped _ _ _ Hforth) in Hfresh.
      apply json_member_names in Hk' as [(h & Hh & ->)|[->|Hk']].
      + destruct (translate_header_mapping_cases h) as [[_ Heq]|[_ Hin]].
        * rewrite Heq in Hfresh. done.
        * by apply Hvalues in Hin.
      + destruct Hnull. apply dict_get_Some_elem in Hforth.
        by apply (list_elem_of_fmap_2 snd _ (k, "null")).
      + by apply Hdefaults in Hk'. }
  split.
  - intros Hdata. destruct data as [|record data]; [done|].
    destruct (Hentry (json_record record)) as [Hin _]; [left|].
    eapply translate_in_headers, field_union_elem; [left|done].
  - apply Forall_forall. intros out_row (entry & -> & Hin)%list_elem_of_fmap.
    intros p Hp. rewrite list_lookup_fmap, Hp. simpl.
    unfold dict_get_default. by destruct (Hentry _ Hin) as [_ ->].
Qed.

Lemma defaults_reach_output_witness :
  ∃ hs out_rows,
    json_to_csv (VStr "")
      (json_dump_load
         [mapped_row (dictreader_row ["Supplier Company"; "enrichmentStatus"]
                        ["Acme"; "Failed"])]) = Ok (hs, out_rows) ∧
    "Enrichment Status" ∈ hs ∧
    Forall (λ out_row, ∀ p, hs !! p = Some "Enrichment Status" →
                            out_row !! p = Some (VStr "Success")) out_rows.
Proof.
  do 2 eexists. split; [apply json_to_csv_total|].
  destruct (defaults_reach_output ["Supplier Company"; "enrichmentStatus"]
              [["Acme"; "Failed"]]
              [mapped_row (dictreader_row ["Supplier Company"; "enrichmentStatus"]
                             ["Acme"; "Failed"])]
              _ _ "enrichmentStatus" "Success" ltac:(compute_done)
              (json_to_csv_total _ _) ltac:(compute_done) ltac:(compute_done))
    as [Hcol Hcells].
  split; [by apply Hcol|done].
Defined.

Section pass_through.
Context (c : string).
Context (Hkey : c ∉ dict_keys csv_mapping) (Hcolumn : c ∉ dict_values csv_mapping).
Context (fieldnames row : list string).
Context (Hnd : NoDup fieldnames) (Hlen : length row ≤ length fieldnames).
Context (j : nat) (v : string).
Context (Hj : fieldnames !! j = Some c) (Hv : row !! j = Some v).

Lemma pass_through_ingest : translate header_mapping c = c.
Proof.
  destruct tables_vocabulary as (Hkeys & _).
  apply translate_absent. intros ?. by apply Hcolumn, Hkeys.
Qed.

(** Ingest: the record holds the cell under the column's own name. *)
Lemma record_get_pass_through :
  dict_get (mapped_row (dictreader_row fieldnames row)) (KStr c) = Some (VStr v).
Proof.
  destruct tables_vocabulary as (_ & Hvalues & Hdefaults & _).
  unfold mapped_row. rewrite dict_get_update, default_lookup_absent, dict_get_of_pairs
    by (intros ?; by apply Hkey, Hdefaults).
  rewrite dictreader_row_well_formed by done.
  apply (dict_get_reverse_lookup _ j).
  - rewrite list_lookup_fmap, (reader_pairs_lookup c _ _ Hlen j v) by done. simpl.
    by rewrite pass_through_ingest.
  - rewrite <-fmap_drop, rekey_keys, fmap_drop, reader_pairs_keys by done.
    rewrite <-fmap_drop, <-list_fmap_compose.
    intros (h' & [= Hc] & Hin)%list_elem_of_fmap.
    destruct (translate_header_mapping_cases h') as [[_ Heq]|[_ Hval]].
    + rewrite Heq in Hc. subst h'.
      rewrite <-(take_drop_middle _ _ _ Hj) in Hnd.
      by apply NoDup_app in Hnd as (_ & _ & [? _]%NoDup_cons).
    + rewrite <-Hc in Hval. by apply Hkey, Hvalues.
Qed.

(** The JSON file: the member of that name holds the cell. *)
Lemma json_record_get_pass_through :
  dict_get (json_record (mapped_row (dictreader_row fieldnames row))) c
    = Some (VStr v).
Proof.
  apply (json_record_get _ (KStr c)).
  - apply mapped_row_NoDup.
  - apply record_get_pass_through.
  - intros key' Hin Hs.
    apply (record_keys _ _ Hnd Hlen) in Hin as [(h' & _ & ->)|(k & _ & ->)];
      simpl in Hs; by rewrite Hs.
Qed.

(** Egress: the row dictionary holds the cell under the same name. *)
Lemma egress_row_get_pass_through :
  dict_get (egress_row (json_record (mapped_row (dictreader_row fieldnames row)))) c
    = Some (VStr v).
Proof.
  pose proof (dict_rekey_get (translate csv_mapping)
                (json_record (mapped_row (dictreader_row fieldnames row))) c (VStr v))
    as Hget.
  rewrite (translate_absent csv_mapping c Hkey) in Hget. apply Hget.
  - apply dict_of_pairs_NoDup.
  - apply json_record_get_pass_through.
  - intros k' _ Heq. rewrite <-(translate_absent csv_mapping c Hkey) in Heq.
    apply translate_csv_mapping_eq in Heq as [?|[Hback|Hforth]]; [done|..].
    + destruct Hcolumn. apply dict_get_Some_elem in Hback.
      by apply (list_elem_of_fmap_2 snd _ (k', c)).
    + destruct Hkey. apply dict_get_Some_elem in Hforth.
      by apply (list_elem_of_fmap_2 fst _ (c, k')).
Qed.
End pass_through.

(** X11.  Round trip of the pass-through columns: for a file whose column
    names are pairwise distinct and whose data rows are no longer than the
    header, a column whose name is neither a key nor a column name of
    [csv_mapping] comes back from [csv_to_json] followed by [json_to_csv]
    under its own name, and in the output row of every row with a
    non-blank cell the cell the row supplied under it is the cell of every
    output column of that name. *)
Theorem round_trip_pass_through (fieldnames : list string) (body : list (list string)) :
  well_formed_csv (fieldnames :: body) →
  ∃ data hs out_rows,
    csv_to_json (fieldnames :: body) = Ok data ∧
    json_to_csv (VStr "") (json_dump_load data) = Ok (hs, out_rows) ∧
    ∀ i row j c v,
      filter nonblank_row body !! i = Some row →
      fieldnames !! j = Some c → row !! j = Some v →
      c ∉ dict_keys csv_mapping → c ∉ dict_values csv_mapping →
      c ∈ hs ∧
      ∃ out_row, out_rows !! i = Some out_row ∧
        ∀ p, hs !! p = Some c → out_row !! p = Some (VStr v).
Proof.
  intros Hwf.
  pose (data := (λ row, mapped_row (dictreader_row fieldnames row))
                  <$> filter nonblank_row body).
  exists data, (headers (json_dump_load data)),
    (written_rows (VStr "") (headers (json_dump_load data)) (json_dump_load data)).
  split_and!.
  - by apply csv_to_json_well_formed.
  - apply json_to_csv_total.
  - intros i row j c v Hi Hj Hv Hkey Hcolumn. destruct Hwf as [Hnd Hlen].
    assert (length row ≤ length fieldnames) as Hrow.
    { rewrite Forall_forall in Hlen. apply Hlen.
      apply list_elem_of_lookup_2 in Hi. by apply list_elem_of_filter in Hi as [_ ?]. }
    pose proof (egress_row_get_pass_through c Hkey Hcolumn fieldnames row Hnd Hrow
                  j v Hj Hv) as Hcell.
    pose proof (json_record_get_pass_through c Hkey Hcolumn fieldnames row Hnd Hrow
                  j v Hj Hv) as Hmember.
    set (entry := json_record (mapped_row (dictreader_row fieldnames row))) in *.
    assert (json_dump_load data !! i = Some entry) as Hentry.
    { unfold json_dump_load, data. by rewrite !list_lookup_fmap, Hi. }
    split.
    + rewrite <-(translate_absent csv_mapping c Hkey).
      eapply translate_in_headers, field_union_elem.
      * by eapply list_elem_of_lookup_2.
      * apply dict_get_Some_elem in Hmember.
        by apply (list_elem_of_fmap_2 fst _ (c, VStr v)).
    + eexists. split.
      * unfold written_rows. rewrite list_lookup_fmap, Hentry. done.
      * intros p Hp. rewrite list_lookup_fmap, Hp. simpl.
        unfold dict_get_default. by rewrite Hcell.
Qed.

Lemma round_trip_pass_through_witness :
  ∃ data hs out_rows,
    csv_to_json [["Notes"; "Supplier Company"]; ["call back"; "Acme"]] = Ok data ∧
    json_to_csv (VStr "") (json_dump_load data) = Ok (hs, out_rows) ∧
    "Notes" ∈ hs ∧
    ∃ out_row, out_rows !! 0 = Some out_row ∧
      ∀ p, hs !! p = Some "Notes" → out_row !! p = Some (VStr "call back").
Proof.
  destruct (round_trip_pass_through ["Notes"; "Supplier Company"]
              [["call back"; "Acme"]]) as (data & hs & out_rows & Hin & Hout & Hcells);
    [compute_done|].
  exists data, hs, out_rows. split; [done|]. split; [done|].
  apply (Hcells 0 ["call back"; "Acme"] 0 "Notes" "call back"); compute_done.
Defined.

(** ** Paths *)

Lemma append_cons a s1 s2 : String a s1 +:+ s2 = String a (s1 +:+ s2).
Proof. done. Qed.

Lemma chars_app s1 s2 : chars (s1 +:+ s2) = chars s1 ++ chars s2.
Proof.
  induction s1 as [|a s1 IH]; [done|]. rewrite append_cons. simpl. by rewrite IH.
Qed.

Lemma string_of_chars s : of_chars (chars s) = s.
Proof. induction s as [|a s IH]; simpl; [done|]. by rewrite IH. Qed.

Lemma chars_of_list l : chars (of_chars l) = l.
Proof. induction l as [|a l IH]; simpl; [done|]. by rewrite IH. Qed.

Lemma chars_inj s1 s2 : chars s1 = chars s2 → s1 = s2.
Proof. intros Heq. by rewrite <-(string_of_chars s1), Heq, string_of_chars. Qed.

Lemma rfind_from_app c l1 l2 i last :
  rfind_from c (l1 ++ l2) i last =
    rfind_from c l2 (i + Z.of_nat (length l1))%Z (rfind_from c l1 i last).
Proof.
  revert i last. induction l1 as [|a l1 IH]; intros i last; simpl.
  - by rewrite Z.add_0_r.
  - rewrite IH. f_equal. lia.
Qed.

Lemma rfind_from_absent c l i last : c ∉ l → rfind_from c l i last = last.
Proof.
  revert i last. induction l as [|a l IH]; intros i last; simpl; [done|].
  intros [? ?]%not_elem_of_cons. rewrite decide_False by done. auto.
Qed.

Lemma rfind_from_bounds c l i last :
  (last < i)%Z → (last ≤ rfind_from c l i last < i + Z.of_nat (length l))%Z.
Proof.
  revert i last. induction l as [|a l IH]; intros i last Hlt; simpl; [lia|].
  case_decide.
  - specialize (IH (i + 1)%Z i). lia.
  - specialize (IH (i + 1)%Z last). lia.
Qed.

(** The last occurrence: nothing of the kind comes after it. *)
Lemma rfind_last c s1 s2 :
  c ∉ chars s2 → rfind c (s1 +:+ String c s2) = Z.of_nat (length (chars s1)).
Proof.
  intros Habsent. unfold rfind. rewrite chars_app, rfind_from_app. simpl.
  rewrite decide_True by done. rewrite rfind_from_absent by done. lia.
Qed.

Lemma rfind_absent c s : c ∉ chars s → rfind c s = (-1)%Z.
Proof. apply rfind_from_absent. Qed.

Lemma rfind_app_absent c s1 s2 : c ∉ chars s2 → rfind c (s1 +:+ s2) = rfind c s1.
Proof.
  intros Habsent. unfold rfind. rewrite chars_app, rfind_from_app.
  by apply rfind_from_absent.
Qed.

Lemma rfind_bounds c s : (-1 ≤ rfind c s < Z.of_nat (length (chars s)))%Z.
Proof. unfold rfind. pose proof (rfind_from_bounds c (chars s) 0 (-1)). lia. Qed.

Lemma str_prefix_app s1 s2 :
  str_prefix (Z.of_nat (length (chars s1))) (s1 +:+ s2) = s1.
Proof.
  unfold str_prefix, str_slice. rewrite chars_app, Z.sub_0_r, Nat2Z.id.
  change (Z.to_nat 0) with 0. rewrite drop_0, take_app_length.
  apply string_of_chars.
Qed.

Lemma str_suffix_app s1 s2 :
  str_suffix (Z.of_nat (length (chars s1))) (s1 +:+ s2) = s2.
Proof.
  unfold str_suffix. rewrite chars_app, Nat2Z.id, drop_app_length.
  apply string_of_chars.
Qed.

Lemma append_assoc_chars s1 s2 s3 : (s1 +:+ s2) +:+ s3 = s1 +:+ (s2 +:+ s3).
Proof. apply chars_inj. by rewrite !chars_app, app_assoc. Qed.

Lemma os_path_splitext_unfold os p :
  os_path_splitext os p =
    if decide (sep_index os p < rfind "."%char p)%Z then
      if decide (Exists (λ ch, ch ≠ "."%char)
                   (chars (str_slice (sep_index os p + 1) (rfind "."%char p) p)))
      then (str_prefix (rfind "."%char p) p, str_suffix (rfind "."%char p) p)
      else (p, "")
    else (p, "").
Proof. by destruct os. Qed.

Lemma sep_index_app_absent os s1 s2 :
  Forall (λ ch, ch ∉ separators os) (chars s2) →
  sep_index os (s1 +:+ s2) = sep_index os s1.
Proof.
  rewrite Forall_forall. intros Habsent.
  assert (∀ sep, sep ∈ separators os → sep ∉ chars s2) as Hsep.
  { intros sep ? Hin. by apply (Habsent _ Hin). }
  destruct os; unfold sep_index; rewrite ?rfind_app_absent; try done;
    apply Hsep; unfold separators; rewrite !elem_of_cons; auto.
Qed.

Lemma sep_index_bounds os p : (-1 ≤ sep_index os p < Z.of_nat (length (chars p)))%Z.
Proof.
  destruct os; unfold sep_index.
  - apply rfind_bounds.
  - pose proof (rfind_bounds "\"%char p). pose proof (rfind_bounds "/"%char p). lia.
Qed.

(** The separator index of a path that ends in a separator. *)
Lemma sep_index_last os d sep :
  sep ∈ separators os → sep_index os (d +:+ String sep "") = Z.of_nat (length (chars d)).
Proof.
  intros Hsep.
  assert (∀ c, c ≠ sep →
    (rfind c (d +:+ String sep "") < Z.of_nat (length (chars d)))%Z) as Hother.
  { intros c Hc. rewrite rfind_app_absent; [apply rfind_bounds|].
    simpl. by intros [->|[]%elem_of_nil]%elem_of_cons. }
  pose proof (rfind_last sep d "") as Hlast. simpl in Hlast.
  destruct os; unfold sep_index, separators in *.
  - apply list_elem_of_singleton in Hsep as ->. apply Hlast, not_elem_of_nil.
  - apply elem_of_cons in Hsep as [->| ->%list_elem_of_singleton].
    + rewrite Hlast by apply not_elem_of_nil.
      specialize (Hother "/"%char ltac:(done)). lia.
    + rewrite Hlast by apply not_elem_of_nil.
      specialize (Hother "\"%char ltac:(done)). lia.
Qed.

(** [os.path.splitext] where the extension is plain: after the last
    separator the path has a character that is not a dot, and what comes
    after its last dot has neither dot nor separator. *)
Lemma splitext_extension os pre ch post ext :
  ch ≠ "."%char → ch ∉ separators os →
  Forall (λ a, a ∉ separators os) (chars post) →
  Forall (λ a, a ≠ "."%char ∧ a ∉ separators os) (chars ext) →
  os_path_splitext os ((pre +:+ String ch post) +:+ String "." ext) =
    (pre +:+ String ch post, String "." ext).
Proof.
  intros Hch Hsep Hpost Hext.
  set (stem := pre +:+ String ch post). set (p := stem +:+ String "." ext).
  assert (rfind "."%char p = Z.of_nat (length (chars stem))) as Hdot.
  { apply rfind_last. rewrite Forall_forall in Hext. intros Hin.
    by destruct (Hext _ Hin). }
  assert (sep_index os p = sep_index os pre) as Hsepidx.
  { unfold p, stem. rewrite append_assoc_chars. apply sep_index_app_absent.
    rewrite append_cons. simpl. rewrite chars_app. simpl.
    apply Forall_cons. split; [done|]. apply Forall_app. split; [done|].
    apply Forall_cons. split; [by destruct os; compute_done|].
    eapply Forall_impl; [done|]. by intros a [_ ?]. }
  pose proof (sep_index_bounds os pre) as Hbounds.
  assert (length (chars stem) = length (chars pre) + S (length (chars post))) as Hlen.
  { unfold stem. by rewrite chars_app, length_app. }
  rewrite os_path_splitext_unfold, Hdot, Hsepidx.
  rewrite decide_True by lia. rewrite decide_True.
  - unfold p. by rewrite str_prefix_app, str_suffix_app.
  - apply Exists_exists. exists ch. split; [|done].
    unfold str_slice. rewrite chars_of_list.
    apply list_elem_of_lookup.
    exists (length (chars pre) - Z.to_nat (sep_index os pre + 1)).
    rewrite lookup_take, decide_True by lia. rewrite lookup_drop.
    replace (Z.to_nat (sep_index os pre + 1)
             + (length (chars pre) - Z.to_nat (sep_index os pre + 1)))
      with (length (chars pre)) by lia.
    unfold p, stem. rewrite !chars_app, <-app_assoc. simpl.
    by apply list_lookup_middle.
Qed.

Lemma rsplit_dot_head_extension stem ext :
  "."%char ∉ chars ext → rsplit_dot_head (stem +:+ String "." ext) = stem.
Proof.
  intros Hext. unfold rsplit_dot_head. rewrite rfind_last by done.
  rewrite decide_False by lia. apply str_prefix_app.
Qed.

(** X12.  The hand-over of the JSON file: for a path that ends in [.csv]
    and has, after its last separator, a character other than a dot
    before that extension, [csv_to_json] writes the path with [.json] for
    [.csv], and that is the path [main] computes and gives to every later
    pass, on either platform. *)
Theorem json_path_agrees (os : platform) (pre post : string) (ch : Ascii.ascii) :
  ch ≠ "."%char → ch ∉ separators os →
  Forall (λ a, a ∉ separators os) (chars post) →
  output_json_filename os ((pre +:+ String ch post) +:+ ".csv") =
    (pre +:+ String ch post) +:+ ".json" ∧
  main_input_json ((pre +:+ String ch post) +:+ ".csv") =
    output_json_filename os ((pre +:+ String ch post) +:+ ".csv").
Proof.
  intros Hch Hsep Hpost.
  assert (output_json_filename os ((pre +:+ String ch post) +:+ ".csv") =
          (pre +:+ String ch post) +:+ ".json") as Hout.
  { unfold output_json_filename.
    rewrite (splitext_extension os pre ch post "csv"); [done..|].
    destruct os; compute_done. }
  split; [done|]. rewrite Hout. unfold main_input_json.
  rewrite (rsplit_dot_head_extension _ "csv"); [done|compute_done].
Qed.

Lemma json_path_agrees_witness :
  output_json_filename Nt "C:\data.v2\suppliers.csv" = "C:\data.v2\suppliers.json" ∧
  main_input_json "C:\data.v2\suppliers.csv" =
    output_json_filename Nt "C:\data.v2\suppliers.csv".
Proof.
  apply (json_path_agrees Nt "C:\data.v2\" "uppliers" "s"%char); compute_done.
Defined.

Lemma slice_empty a s : chars (str_slice a a s) = [].
Proof. unfold str_slice. by rewrite chars_of_list, Z.sub_diag. Qed.

(** [os.path.splitext] finds no extension in a file name that is a dot
    and letters: the path is the root, whole. *)
Lemma splitext_hidden os dir ext :
  sep_index os dir = (Z.of_nat (length (chars dir)) - 1)%Z →
  Forall (λ a, a ≠ "."%char ∧ a ∉ separators os) (chars ext) →
  os_path_splitext os (dir +:+ String "." ext) = (dir +:+ String "." ext, "").
Proof.
  intros Hdir Hext.
  assert (rfind "."%char (dir +:+ String "." ext) = Z.of_nat (length (chars dir)))
    as Hdot.
  { apply rfind_last. rewrite Forall_forall in Hext. intros Hin.
    by destruct (Hext _ Hin). }
  assert (sep_index os (dir +:+ String "." ext) = sep_index os dir) as Hsep.
  { apply sep_index_app_absent. simpl.
    apply Forall_cons. split; [by destruct os; compute_done|].
    eapply Forall_impl; [done|]. by intros a [_ ?]. }
  rewrite os_path_splitext_unfold, Hdot, Hsep, Hdir.
  rewrite decide_True by lia. rewrite decide_False; [done|].
  replace (Z.of_nat (length (chars dir)) - 1 + 1)%Z
    with (Z.of_nat (length (chars dir))) by lia.
  rewrite slice_empty. by intros ?%Exists_nil.
Qed.

(** X13.  A file that is named [.csv] and nothing more: [csv_to_json]
    takes the name to have no extension and writes the path with [.json]
    added, while [main] cuts at the dot and goes on with the directory
    plus [.json], a file that [csv_to_json] did not write. *)
Theorem json_path_hidden_file (os : platform) (d : string) (sep : Ascii.ascii) :
  sep ∈ separators os →
  output_json_filename os ((d +:+ String sep "") +:+ ".csv") =
    (d +:+ String sep "") +:+ ".csv.json" ∧
  main_input_json ((d +:+ String sep "") +:+ ".csv") = (d +:+ String sep "") +:+ ".json" ∧
  main_input_json ((d +:+ String sep "") +:+ ".csv") ≠
    output_json_filename os ((d +:+ String sep "") +:+ ".csv").
Proof.
  intros Hsep. set (dir := d +:+ String sep "").
  assert (output_json_filename os (dir +:+ ".csv") = dir +:+ ".csv.json") as Hout.
  { unfold output_json_filename. rewrite (splitext_hidden os dir "csv").
    - simpl. by rewrite append_assoc_chars.
    - unfold dir. rewrite sep_index_last by done.
      rewrite chars_app, length_app. simpl. lia.
    - destruct os; compute_done. }
  assert (main_input_json (dir +:+ ".csv") = dir +:+ ".json") as Hmain.
  { unfold main_input_json.
    rewrite (rsplit_dot_head_extension _ "csv"); [done|compute_done]. }
  split_and!; [done..|].
  rewrite Hout, Hmain. intros Heq%(f_equal chars).
  rewrite !chars_app in Heq. by apply app_inv_head in Heq.
Qed.

Lemma json_path_hidden_file_witness :
  output_json_filename Posix "/home/ann/.csv" = "/home/ann/.csv.json" ∧
  main_input_json "/home/ann/.csv" = "/home/ann/.json" ∧
  main_input_json "/home/ann/.csv" ≠ output_json_filename Posix "/home/ann/.csv".
Proof.
  apply (json_path_hidden_file Posix "/home/ann" "/"%char). compute_done.
Defined.

(** X14.  The output file: for a JSON path that ends in [.json] and has,
    after its last separator, a character other than a dot before that
    extension, [json_to_csv] writes the path with [ - Enhanced.csv] for
    [.json], and the closing message of [main] names the same path with a
    small [e]. *)
Theorem enhanced_path (os : platform) (pre post : string) (ch : Ascii.ascii) :
  ch ≠ "."%char → ch ∉ separators os →
  Forall (λ a, a ∉ separators os) (chars post) →
  csv_file_path os ((pre +:+ String ch post) +:+ ".json") =
    (pre +:+ String ch post) +:+ " - Enhanced.csv" ∧
  main_output_file ((pre +:+ String ch post) +:+ ".json") =
    (pre +:+ String ch post) +:+ " - enhanced.csv".
Proof.
  intros Hch Hsep Hpost. split.
  - unfold csv_file_path.
    rewrite (splitext_extension os pre ch post "json"); [done..|].
    destruct os; compute_done.
  - unfold main_output_file.
    rewrite (rsplit_dot_head_extension _ "json"); [done|compute_done].
Qed.

Lemma enhanced_path_witness :
  csv_file_path Posix "/srv/in/suppliers.json" = "/srv/in/suppliers - Enhanced.csv" ∧
  main_output_file "/srv/in/suppliers.json" = "/srv/in/suppliers - enhanced.csv".
Proof.
  apply (enhanced_path Posix "/srv/in/" "uppliers" "s"%char); compute_done.
Defined.

(** X15.  Whatever the path of the JSON file, the file the closing message
    of [main] names is not, letter for letter, the file [json_to_csv]
    writes: the two differ in the case of the [E] of [Enhanced]. *)
Theorem reported_path_not_written (os : platform) (input_json : string) :
  main_output_file input_json ≠ csv_file_path os input_json.
Proof.
  unfold main_output_file, csv_file_path. intros Heq%(f_equal chars).
  rewrite !chars_app in Heq. by apply app_inj_2 in Heq as [_ [=]].
Qed.

(** ** What a record holds, and in which order *)

Lemma reader_pairs_lookup_all fieldnames row j h :
  length row ≤ length fieldnames → fieldnames !! j = Some h →
  reader_pairs fieldnames row !! j =
    Some (KStr h, from_option VStr VNone (row !! j)).
Proof.
  intros Hlen Hj. unfold reader_pairs.
  destruct (row !! j) as [v|] eqn:Hv; simpl.
  - apply lookup_lt_Some in Hv as Hjlt.
    rewrite lookup_app_l by (rewrite length_zip, !length_fmap; lia).
    apply lookup_zip_with_Some. exists (KStr h), (VStr v).
    by rewrite !list_lookup_fmap, Hj, Hv.
  - apply lookup_ge_None in Hv.
    rewrite lookup_app_r by (rewrite length_zip, !length_fmap; lia).
    rewrite length_zip, !length_fmap, Nat.min_r by lia.
    rewrite list_lookup_fmap, lookup_drop.
    replace (length row + (j - length row)) with j by lia. by rewrite Hj.
Qed.

(** X16.  What [csv_to_json] puts in a record, column by column: for a
    file whose column names are pairwise distinct and whose data rows are
    no longer than the header, the record of a row holds, under the
    translated name of a column, the cell the row has in that column, and
    [None] where the row is too short to reach the column; provided the
    translated name is no default field and no column further right
    translates to the same name. *)
Theorem record_contents (fieldnames : list string) (body : list (list string))
    (data : list (pydict pykey pyval)) :
  well_formed_csv (fieldnames :: body) →
  csv_to_json (fieldnames :: body) = Ok data →
  ∀ i row j h,
    filter nonblank_row body !! i = Some row → fieldnames !! j = Some h →
    translate header_mapping h ∉ dict_keys new_json_values →
    (∀ h', h' ∈ drop (S j) fieldnames →
           translate header_mapping h' ≠ translate header_mapping h) →
    ∃ record, data !! i = Some record ∧
      dict_get record (KStr (translate header_mapping h)) =
        Some (from_option VStr VNone (row !! j)).
Proof.
  intros Hwf. rewrite (csv_to_json_well_formed _ _ Hwf). intros [= <-].
  destruct Hwf as [Hnd Hlen]. intros i row j h Hi Hj Hdefault Hright.
  assert (length row ≤ length fieldnames) as Hrow.
  { rewrite Forall_forall in Hlen. apply Hlen.
    apply list_elem_of_lookup_2 in Hi. by apply list_elem_of_filter in Hi as [_ ?]. }
  eexists. rewrite list_lookup_fmap, Hi. split; [done|].
  unfold mapped_row.
  rewrite dict_get_update, default_lookup_absent, dict_get_of_pairs by done.
  rewrite dictreader_row_well_formed by done.
  apply (dict_get_reverse_lookup _ j).
  - by rewrite list_lookup_fmap, (reader_pairs_lookup_all _ _ _ h).
  - rewrite <-fmap_drop, rekey_keys, fmap_drop, reader_pairs_keys by done.
    rewrite <-fmap_drop, <-list_fmap_compose.
    intros (h' & [= Heq] & Hin)%list_elem_of_fmap. by apply (Hright h').
Qed.

Lemma record_contents_witness :
  ∃ record,
    [mapped_row (dictreader_row ["Supplier Company"; "Site ID"] ["Acme"])] !! 0
      = Some record ∧
    dict_get record (KStr (translate header_mapping "Site ID")) =
      Some (from_option VStr VNone (["Acme"] !! 1)).
Proof.
  apply (record_contents ["Supplier Company"; "Site ID"] [["Acme"]]
           [mapped_row (dictreader_row ["Supplier Company"; "Site ID"] ["Acme"])]
           ltac:(compute_done) ltac:(compute_done) 0 ["Acme"] 1 "Site ID");
    [compute_done..|].
  intros h' []%elem_of_nil.
Defined.

(** X17.  The order of the members of a record: for a row that is no
    longer than the header, when the translated column names are pairwise
    distinct and none of them is a default field, the keys of the record
    are the translated column names in the order of the columns, followed
    by the default fields in the order of [new_json_values]. *)
Theorem record_member_order (fieldnames row : list string) :
  length row ≤ length fieldnames →
  NoDup (translate header_mapping <$> fieldnames) →
  Forall (λ h, translate header_mapping h ∉ dict_keys new_json_values) fieldnames →
  dict_keys (mapped_row (dictreader_row fieldnames row)) =
    (KStr <$> (translate header_mapping <$> fieldnames))
    ++ (KStr <$> dict_keys new_json_values).
Proof.
  intros Hlen Hnd Hdefault.
  assert (NoDup fieldnames) as Hnd' by by eapply NoDup_fmap_1.
  assert (((λ kv : pykey * pyval, (ingest_key kv.1, kv.2))
             <$> reader_pairs fieldnames row).*1
          = KStr <$> (translate header_mapping <$> fieldnames)) as Hkeys.
  { rewrite rekey_keys, reader_pairs_keys by done. by rewrite <-!list_fmap_compose. }
  assert (NoDup (KStr <$> (translate header_mapping <$> fieldnames))) as Hnd''.
  { apply NoDup_fmap_2; [|done]. by intros ?? [=]. }
  unfold mapped_row. rewrite dictreader_row_well_formed by done.
  rewrite dict_of_pairs_distinct by by rewrite Hkeys.
  rewrite dict_update_distinct.
  - unfold dict_keys. rewrite fmap_app, Hkeys. f_equal.
  - unfold dict_keys. rewrite Hkeys. apply NoDup_app. split_and!; [done| |].
    + intros key (t & -> & (h & -> & Hh)%list_elem_of_fmap)%list_elem_of_fmap Hin.
      rewrite <-list_fmap_compose in Hin.
      apply list_elem_of_fmap in Hin as ([k w] & [= Hk] & Hin).
      rewrite Forall_forall in Hdefault. apply (Hdefault _ Hh).
      rewrite Hk. by apply (list_elem_of_fmap_2 fst _ (k, w)).
    + rewrite <-list_fmap_compose. compute_done.
Qed.

Lemma record_member_order_witness :
  dict_keys (mapped_row (dictreader_row ["Notes"; "Supplier Company"] ["x"])) =
    (KStr <$> (translate header_mapping <$> ["Notes"; "Supplier Company"]))
    ++ (KStr <$> dict_keys new_json_values).
Proof.
  apply (record_member_order ["Notes"; "Supplier Company"] ["x"]); compute_done.
Defined.

(** X18.  [count_records] counts exactly the data rows in which some cell
    holds a character that is not whitespace: a cell of spaces, tabs or
    line breaks counts for nothing, as an empty one. *)
Theorem count_records_whitespace (rows : list (list string)) :
  count_records rows =
    length (filter (λ row, Exists (λ cell, all_space cell = false) row) (tail rows)).
Proof.
  rewrite count_records_nonblank. f_equal. apply list_filter_iff. intros row.
  assert (∀ cell, nonblank_cell cell ↔ all_space cell = false) as Hcell.
  { intros cell. unfold nonblank_cell. rewrite strip_empty.
    by destruct (all_space cell). }
  unfold nonblank_row. rewrite !Exists_exists.
  split; intros (cell & ? & ?); exists cell; by rewrite Hcell in *.
Qed.

Lemma reported_path_not_written_witness :
  main_output_file "/srv/in/suppliers.json" ≠ csv_file_path Nt "/srv/in/suppliers.json".
Proof. apply (reported_path_not_written Nt "/srv/in/suppliers.json"). Defined.
